(** * sjcam-copy: the archiver loop of [misc/scripts/sjcam-copy.py]

    The script polls a source directory, compresses every [*.fits] entry with
    [/bin/gzip -1], parses a date out of the file name with the regular
    expression [re_fname], creates the directory
    [<dstbasedir>/<prefix>/<YYYY>/<MM>/<DD>] when it is absent and moves the
    compressed file there.

    The embedding is shallow.  File names and paths are byte strings: the
    [str] of Python 2, and the bytes of the names that Python 3 has as text.
    The regular expression is kept as syntax and run by a backtracking
    matcher with Python's conventions; its [\d] is [0-9], which is what
    either Python takes for a digit among the characters of ASCII.  Python 3
    takes further decimal digits outside of ASCII, so the account of which
    names the pattern takes (C8) is given for names of ASCII characters.

    Everything that leaves the process
    ([subprocess.call], [os.listdir], [os.path.isdir], [os.path.abspath],
    [time.sleep], signal delivery) is an operation of an abstract operating
    system [OS] over a world [W]; the script runs in a state-and-exception
    monad over that world and logs every such operation in a trace.

    The operations of [OS] are total: a call of a utility is what
    [subprocess.call] returns, its return code.  The exceptions the script
    can raise by itself are [NameError] for a global that is not bound and
    [TypeError] for a group that is [None].  A utility that cannot be
    started makes [subprocess.call] raise [OSError]; the script over an
    operating system where that can happen is [Launch], which is the script
    above wherever the utilities can be started.  A source directory that
    cannot be listed is not modelled. *)

From Stdlib Require Import String Ascii List ZArith Lia Bool Arith.
Import ListNotations.
Open Scope string_scope.

(** ** Byte strings *)

Module Str.

Definition newline : ascii := "010"%char.

(** The one-character string ['\n']. *)
Definition nl : string := String newline "".

(** [\d] on a byte string: the ten ASCII digits.  Among the characters of
    ASCII this is [\d] on text too. *)
Definition is_digit (c : ascii) : bool :=
  ((48 <=? nat_of_ascii c)%nat && (nat_of_ascii c <=? 57)%nat)%bool.

(** A name of ASCII characters: every byte is below 128. *)
Fixpoint ascii_only (s : string) : bool :=
  match s with
  | "" => true
  | String c s' => ((nat_of_ascii c <? 128)%nat && ascii_only s')%bool
  end.

(** [s[:n]] *)
Fixpoint take (n : nat) (s : string) : string :=
  match n, s with
  | S n', String c s' => String c (take n' s')
  | _, _ => ""
  end.

(** [s.startswith(pre)] *)
Fixpoint startswith (s pre : string) {struct pre} : bool :=
  match pre, s with
  | "", _ => true
  | String c pre', String c' s' => (Ascii.eqb c' c && startswith s' pre')%bool
  | String _ _, "" => false
  end.

(** [s.endswith(suf)] *)
Fixpoint endswith (s suf : string) : bool :=
  if String.eqb s suf then true
  else match s with
       | "" => false
       | String _ s' => endswith s' suf
       end.

(** [c not in s] *)
Fixpoint lacks (c : ascii) (s : string) : bool :=
  match s with
  | "" => true
  | String c' s' => (negb (Ascii.eqb c' c) && lacks c s')%bool
  end.

(** A string of exactly [n] digits. *)
Fixpoint digits (n : nat) (s : string) : bool :=
  match n, s with
  | 0, "" => true
  | S n', String c s' => (is_digit c && digits n' s')%bool
  | _, _ => false
  end.

End Str.
Import Str.

(** ** Regular expressions, as far as [re_fname] uses them *)

Module Re.

Inductive regex : Type :=
| Bol                            (* ^ *)
| Eol                            (* $ *)
| Chr (c : ascii)                (* a literal character *)
| Dot                            (* . *)
| Digit                          (* \d *)
| Seq (r1 r2 : regex)            (* r1 r2 *)
| Star (r : regex)               (* r*  (greedy) *)
| Opt (r : regex)                (* r?  (greedy) *)
| Rep (n : nat) (r : regex)      (* r{n} *)
| Group (i : nat) (r : regex)    (* (r), the i-th capturing group *)
| NGroup (r : regex).            (* (?:r) *)

(** Text captured so far, most recent capture first. *)
Definition caps : Type := list (nat * string).

(** What is left to match: the rest of the pattern, as a function of the
    rest of the subject and of the captures. *)
Definition cont : Type := string -> caps -> option caps.

Definition orelse {A : Type} (a b : option A) : option A :=
  match a with
  | Some x => Some x
  | None => b
  end.

(** One pattern item, waiting for its subject and for what follows it. *)
Definition step : Type := string -> caps -> cont -> option caps.

(** [r*]: once more if that consumes something and the rest then matches,
    else on with the rest.  No round is empty, so the length of the subject
    bounds the rounds. *)
Fixpoint star_loop (one : step) (k : cont) (fuel : nat) (s : string) (cs : caps)
  {struct fuel} : option caps :=
  match fuel with
  | 0 => k s cs
  | S fuel' =>
      orelse (one s cs (fun s' cs' =>
                if (String.length s' <? String.length s)%nat
                then star_loop one k fuel' s' cs' else None))
             (k s cs)
  end.

(** [r{n}] *)
Fixpoint rep_loop (one : step) (k : cont) (n : nat) (s : string) (cs : caps)
  {struct n} : option caps :=
  match n with
  | 0 => k s cs
  | S n' => one s cs (rep_loop one k n')
  end.

(** The backtracking matcher.  [n0] is the length of the whole subject, so
    that [^] can tell the start; [s] is the rest of the subject.
    Alternatives are tried in Python's order: a greedy [*] or [?] first
    tries to match once more and only then goes on with the rest of the
    pattern.  Without [re.DOTALL] the dot rejects a newline, and without
    [re.MULTILINE] [$] holds at the end of the subject and just before a
    newline that ends it. *)
Fixpoint exec (n0 : nat) (r : regex) (s : string) (cs : caps) (k : cont)
  {struct r} : option caps :=
  match r with
  | Bol => if (String.length s =? n0)%nat then k s cs else None
  | Eol => match s with
           | "" => k s cs
           | String c "" => if Ascii.eqb c newline then k s cs else None
           | _ => None
           end
  | Chr c => match s with
             | String c' s' => if Ascii.eqb c' c then k s' cs else None
             | "" => None
             end
  | Dot => match s with
           | String c' s' => if Ascii.eqb c' newline then None else k s' cs
           | "" => None
           end
  | Digit => match s with
             | String c' s' => if is_digit c' then k s' cs else None
             | "" => None
             end
  | Seq r1 r2 => exec n0 r1 s cs (fun s' cs' => exec n0 r2 s' cs' k)
  | Opt r1 => orelse (exec n0 r1 s cs k) (k s cs)
  | Star r1 => star_loop (exec n0 r1) k (String.length s) s cs
  | Rep n r1 => rep_loop (exec n0 r1) k n s cs
  | Group i r1 =>
      exec n0 r1 s cs (fun s' cs' =>
        k s' ((i, take (String.length s - String.length s') s) :: cs'))
  | NGroup r1 => exec n0 r1 s cs k
  end.

(** [r.match(s)]: anchored at the start of [s], free at its end. *)
Definition rmatch (r : regex) (s : string) : option caps :=
  exec (String.length s) r s [] (fun _ cs => Some cs).

Fixpoint ngroups (r : regex) : nat :=
  match r with
  | Seq r1 r2 => ngroups r1 + ngroups r2
  | Star r1 | Opt r1 | NGroup r1 | Rep _ r1 => ngroups r1
  | Group _ r1 => S (ngroups r1)
  | _ => 0
  end.

Fixpoint lookup (i : nat) (cs : caps) : option string :=
  match cs with
  | [] => None
  | (j, t) :: cs' => if (i =? j)%nat then Some t else lookup i cs'
  end.

(** [m.groups()]: groups 1, 2, ...; [None] for one that took no part. *)
Definition groups (r : regex) (cs : caps) : list (option string) :=
  map (fun i => lookup i cs) (seq 1 (ngroups r)).

(** A sequence of pattern items. *)
Fixpoint seqs (rs : list regex) : regex :=
  match rs with
  | [] => Rep 0 Dot
  | [r] => r
  | r :: rs' => Seq r (seqs rs')
  end.

End Re.
Import Re.

(** ** [os.path.join] *)

Module PosixPath.

(** One round of [posixpath.join]'s loop: a component that starts with a
    slash replaces the path, otherwise it is appended, after a slash unless
    the path is empty or already ends with one. *)
Definition join2 (path b : string) : string :=
  if startswith b "/" then b
  else if (String.eqb path "" || endswith path "/")%bool then path ++ b
  else path ++ "/" ++ b.

(** [os.path.join(a, *p)] *)
Definition join (a : string) (p : list string) : string :=
  fold_left join2 p a.

(** [path.split('/')] *)
Fixpoint split_slash (path : string) : list string :=
  match path with
  | "" => [""]
  | String c rest =>
      if Ascii.eqb c "/" then "" :: split_slash rest
      else match split_slash rest with
           | x :: xs => String c x :: xs
           | [] => [String c ""]
           end
  end.

(** The names a path steps through: its pieces between slashes, the empty
    ones (from a doubled or a final slash) left out. *)
Definition segments (path : string) : list string :=
  filter (fun x => negb (String.eqb x "")) (split_slash path).

(** Two spellings of one place: both absolute or both relative, and the
    same names in the same order.  [/a//b/] and [/a/b] are the same place. *)
Definition same_place (a b : string) : Prop :=
  startswith a "/" = startswith b "/" /\ segments a = segments b.

End PosixPath.

(** ** The script's constants *)

Definition gzip_cmd : list string := ["/bin/gzip"; "-1"].
Definition mkdir_cmd : list string := ["/bin/mkdir"; "-p"].
Definition mv_cmd : list string := ["/bin/mv"].

(** Line 33.  The text of the pattern; [re_fname] is the pattern it
    compiles to, item by item. *)
Definition re_fname_pattern : string :=
  "^(.*)_(\d{4})(\d{2})(\d{2})-\d{9}\.fits(?:\.gz)?$".

Definition re_fname : regex :=
  seqs [ Bol; Group 1 (Star Dot); Chr "_";
         Group 2 (Rep 4 Digit); Group 3 (Rep 2 Digit); Group 4 (Rep 2 Digit);
         Chr "-"; Rep 9 Digit;
         Chr "."; Chr "f"; Chr "i"; Chr "t"; Chr "s";
         Opt (NGroup (seqs [Chr "."; Chr "g"; Chr "z"]));
         Eol ].

(** [re_fname.match(fname)] followed by [.groups()]. *)
Definition re_fname_groups (fname : string) : option (list (option string)) :=
  option_map (groups re_fname) (rmatch re_fname fname).

(** The subjects of [re_fname], written out: a prefix, an underscore, the
    digits of year, month and day, a dash, the digits of a serial number,
    [.fits], then [gz] and [e], each of which may be empty. *)
Definition fits_name (p y m d n gz e : string) : string :=
  p ++ "_" ++ y ++ m ++ d ++ "-" ++ n ++ ".fits" ++ gz ++ e.

(** The file name pattern in the specification's words:
    [<prefix>_<YYYY><MM><DD>-<9 digits>.fits], optionally followed by [.gz]. *)
Definition spec_filename_shape (fname : string) : Prop :=
  exists p y m d n gz,
    fname = fits_name p y m d n gz "" /\
    digits 4 y = true /\ digits 2 m = true /\ digits 2 d = true /\
    digits 9 n = true /\ (gz = "" \/ gz = ".gz").

(** ** The operating system *)

(** What the script asks of its environment.  [os_call] is
    [subprocess.call]: it runs a command to its end and gives its return
    code.  [os_signalled w] tells that in reaching [w] a [SIGINT] or
    [SIGTERM] was delivered, so that the handler ran. *)
Class OS (W : Type) : Type := {
  os_call : list string -> W -> Z * W;
  os_isdir : string -> W -> bool;
  os_listdir : string -> W -> list string;
  os_abspath : string -> W -> string;
  os_sleep : W -> W;
  os_signalled : W -> bool
}.

Inductive exn : Type :=
| NameError (name : string)
| TypeError
| OSError.

Inductive res (A : Type) : Type :=
| Ok (a : A)
| Raise (e : exn).
Arguments Ok {A} a.
Arguments Raise {A} e.

(** What the process did, in order. *)
Inductive event : Type :=
| ECall (argv : list string)
| EIsdir (path : string)
| EListdir (path : string)
| ESleep
| EWrite (text : string)
| EFlush
| EReadQuit.

(** The calls of external programs in a trace. *)
Fixpoint calls (t : list event) : list (list string) :=
  match t with
  | [] => []
  | ECall argv :: t' => argv :: calls t'
  | _ :: t' => calls t'
  end.

(** What a trace wrote to standard output. *)
Fixpoint output (t : list event) : string :=
  match t with
  | [] => ""
  | EWrite s :: t' => s ++ output t'
  | _ :: t' => output t'
  end.

(** How often a trace read the termination flag. *)
Fixpoint flag_reads (t : list event) : nat :=
  match t with
  | [] => 0
  | EReadQuit :: t' => S (flag_reads t')
  | _ :: t' => flag_reads t'
  end.

(** How often a trace listed a directory, that is, began a poll. *)
Fixpoint polls (t : list event) : nat :=
  match t with
  | [] => 0
  | EListdir _ :: t' => S (polls t')
  | _ :: t' => polls t'
  end.

Definition is_gzip_call (argv : list string) : bool :=
  match argv with
  | a :: b :: _ => (String.eqb a "/bin/gzip" && String.eqb b "-1")%bool
  | _ => false
  end.

(** How many files a trace began to process: each begins with its [gzip]. *)
Definition files_begun (t : list event) : nat :=
  List.length (filter is_gzip_call (calls t)).

Section Script.

Context {W : Type} {os : OS W}.

(** The process: the world around it, the two module globals that the
    functions read ([dstbasedir] is unbound until line 79 has run), and the
    trace. *)
Record state : Type := mkState {
  world : W;
  dstbasedir : option string;
  quit : bool;
  trace : list event
}.

Definition M (A : Type) : Type := state -> res A * state.

Definition ret {A : Type} (a : A) : M A := fun st => (Ok a, st).

Definition raise {A : Type} (e : exn) : M A := fun st => (Raise e, st).

Definition bind {A B : Type} (c : M A) (f : A -> M B) : M B :=
  fun st =>
    match c st with
    | (Ok a, st') => f a st'
    | (Raise e, st') => (Raise e, st')
    end.

Notation "x <- c1 ;; c2" := (bind c1 (fun x => c2))
  (at level 61, c1 at next level, right associativity).
Notation "c1 ;; c2" := (bind c1 (fun _ => c2))
  (at level 61, right associativity).

Definition log (e : event) (st : state) : state :=
  mkState (world st) (dstbasedir st) (quit st) (trace st ++ [e]).

(** The world moved to [w].  [sighandler] runs if a signal came with it;
    its whole body is [quit = True].  The flag is read only after a call or
    a sleep, so a signal that comes between two operations is as good as
    one that comes with the next of these. *)
Definition advance (w : W) (st : state) : state :=
  mkState w (dstbasedir st) (quit st || os_signalled w) (trace st).

(** [subprocess.call(argv)] *)
Definition call (argv : list string) : M Z :=
  fun st =>
    let (rc, w) := os_call argv (world st) in
    (Ok rc, advance w (log (ECall argv) st)).

(** [os.path.isdir(path)] *)
Definition isdir (path : string) : M bool :=
  fun st => (Ok (os_isdir path (world st)), log (EIsdir path) st).

(** [os.listdir(path)] *)
Definition listdir (path : string) : M (list string) :=
  fun st => (Ok (os_listdir path (world st)), log (EListdir path) st).

(** [time.sleep(1)] *)
Definition sleep : M unit :=
  fun st => (Ok tt, advance (os_sleep (world st)) (log ESleep st)).

(** [sys.stdout.write(text)] *)
Definition write (text : string) : M unit :=
  fun st => (Ok tt, log (EWrite text) st).

(** [sys.stdout.flush()] *)
Definition flush : M unit :=
  fun st => (Ok tt, log EFlush st).

(** Reading the global [quit]. *)
Definition read_quit : M bool :=
  fun st => (Ok (quit st), log EReadQuit st).

(** Reading the global [dstbasedir]. *)
Definition read_dstbasedir : M string :=
  fun st =>
    match dstbasedir st with
    | Some d => (Ok d, st)
    | None => (Raise (NameError "dstbasedir"), st)
    end.

(** The arguments [*m.groups()] of [os.path.join], which takes strings only. *)
Fixpoint strings (gs : list (option string)) : M (list string) :=
  match gs with
  | [] => ret []
  | Some g :: gs' => l <- strings gs' ;; ret (g :: l)
  | None :: _ => raise TypeError
  end.

Definition when (b : bool) (c : M unit) : M unit :=
  if b then c else ret tt.

(** Lines 35-36 *)
Definition gzip (fname : string) : M bool :=
  rc <- call (gzip_cmd ++ [fname]) ;;
  ret (rc =? 0)%Z.

(** Lines 38-39 *)
Definition mkdir (dname : string) : M bool :=
  rc <- call (mkdir_cmd ++ [dname]) ;;
  ret (rc =? 0)%Z.

(** Lines 41-42 *)
Definition mv (src dst : string) : M bool :=
  rc <- call (mv_cmd ++ [src; dst]) ;;
  ret (rc =? 0)%Z.

(** Lines 44-54.  The base directory is the global [dstbasedir]; the
    parameter is spelt [destbasedir] and is not used. *)
Definition move_file (fname srcdir destbasedir : string) (verbose : bool) : M bool :=
  match re_fname_groups fname with
  | None => ret false
  | Some gs =>
      base <- read_dstbasedir ;;
      segs <- strings gs ;;
      let dstdir := PosixPath.join base segs in
      let finish : M bool :=
        when verbose (write (PosixPath.join dstdir [fname])) ;;
        mv (PosixPath.join srcdir [fname]) dstdir in
      present <- isdir dstdir ;;
      if negb present then
        made <- mkdir dstdir ;;
        if negb made then ret false else finish
      else finish
  end.

(** Line 95: the entries that end with [.fits], in listing order. *)
Definition candidates (entries : list string) : list string :=
  filter (fun fn => endswith fn ".fits") entries.

(** Lines 97-103: the body of the [for] loop up to the test of [quit]. *)
Definition process_one_file (verbose : bool) (srcdir base : string) (fn : string)
  : M unit :=
  when verbose (write (PosixPath.join srcdir [fn] ++ " -> ")) ;;
  zipped <- gzip (PosixPath.join srcdir [fn]) ;;
  (if zipped then
     _ <- move_file (fn ++ ".gz") srcdir base verbose ;; ret tt
   else ret tt) ;;
  when verbose (write nl ;; flush).

(** Lines 96-105 *)
Fixpoint for_files (verbose : bool) (srcdir base : string) (fnlist : list string)
  : M unit :=
  match fnlist with
  | [] => ret tt
  | fn :: rest =>
      process_one_file verbose srcdir base fn ;;
      q <- read_quit ;;
      if q then ret tt else for_files verbose srcdir base rest
  end.

(** Lines 95-106: one round of the [while] loop. *)
Definition poll (verbose : bool) (srcdir base : string) : M unit :=
  entries <- listdir srcdir ;;
  for_files verbose srcdir base (candidates entries) ;;
  sleep.

(** Lines 94-106.  The loop has no bound of its own: [None] says that it
    was still running after [fuel] rounds, in the state given with it. *)
Fixpoint main_loop (fuel : nat) (verbose : bool) (srcdir base : string)
  (st : state) : option (res unit) * state :=
  match fuel with
  | 0 => (None, st)
  | S fuel' =>
      match read_quit st with
      | (Ok true, st1) => (Some (Ok tt), st1)
      | (Ok false, st1) =>
          match poll verbose srcdir base st1 with
          | (Ok _, st2) => main_loop fuel' verbose srcdir base st2
          | (Raise e, st2) => (Some (Raise e), st2)
          end
      | (Raise e, st1) => (Some (Raise e), st1)
      end
  end.

(** What [parser.parse_args()] returns: [opts] and [args]. *)
Record options : Type := mkOptions {
  indir : option string;
  outdir : option string;
  verbose : bool
}.

(** [not o] for an option value: unset, or the empty string. *)
Definition unset (o : option string) : bool :=
  match o with
  | None => true
  | Some s => String.eqb s ""
  end.

Definition value (o : option string) : string :=
  match o with
  | Some s => s
  | None => ""
  end.

(** How a run ends, if it does. *)
Inductive outcome : Type :=
| UsageError (msg : string)   (* parser.error(msg) *)
| Finished                     (* the end of the script was reached *)
| Uncaught (e : exn)           (* an exception left the script *)
| Running.                     (* the loop outlasted the fuel *)

(** The exit status: [parser.error] exits with 2, an uncaught exception
    with 1, the end of the script with 0. *)
Definition exit_status (o : outcome) : option Z :=
  match o with
  | UsageError _ => Some 2%Z
  | Finished => Some 0%Z
  | Uncaught _ => Some 1%Z
  | Running => None
  end.

(** The process before line 70. *)
Definition boot (w : W) : state := mkState w None false [].

(** Lines 70-91, from the parsed command line on: either [parser.error]
    ends the run, or the loop is entered with [srcdir], [dstbasedir] and
    the state of the process. *)
Definition startup (opts : options) (args : list string) (w : W)
  : (outcome * state) + (string * string * state) :=
  let st0 := boot w in
  match args with
  | _ :: _ => inl (UsageError "Invalid arguments specified.", st0)
  | [] =>
      if unset (indir opts) then
        inl (UsageError "No input directory specified.", st0)
      else if unset (outdir opts) then
        inl (UsageError "No output directory specified.", st0)
      else
        let srcdir := os_abspath (value (indir opts)) w in
        let base := os_abspath (value (outdir opts)) w in
        let st1 := mkState w (Some base) false [] in
        match isdir srcdir st1 with
        | (Ok false, st2) => inl (UsageError "Input directory does not exist.", st2)
        | (Raise e, st2) => inl (Uncaught e, st2)
        | (Ok true, st2) =>
            match isdir base st2 with
            | (Ok false, st3) => inl (UsageError "Output directory does not exist.", st3)
            | (Raise e, st3) => inl (Uncaught e, st3)
            | (Ok true, st3) => inr (srcdir, base, st3)
            end
        end
  end.

(** How the script ends once its loop has. *)
Definition finish (r : option (res unit) * state) : outcome * state :=
  match r with
  | (None, st) => (Running, st)
  | (Some (Ok _), st) => (Finished, st)
  | (Some (Raise e), st) => (Uncaught e, st)
  end.

(** Lines 70-106. *)
Definition main (fuel : nat) (opts : options) (args : list string) (w : W)
  : outcome * state :=
  match startup opts args w with
  | inl stop => stop
  | inr (srcdir, base, st) => finish (main_loop fuel (verbose opts) srcdir base st)
  end.


End Script.

Arguments state W : clear implicits.
Arguments M W A : clear implicits.

(** ** Utilities that cannot be started *)

(** [subprocess.call] gives a return code only for a command that it could
    start.  Where the program is not there, or may not be executed, it
    raises [OSError], and the script has no [try] around any of its calls.
    [os_starts argv w] tells whether [argv] can be started in [w]. *)
Class Launcher (W : Type) : Type := {
  os_starts : list string -> W -> bool
}.

(** The three utilities can be started, whatever their arguments. *)
Definition installed {W : Type} {launcher : Launcher W} : Prop :=
  forall prog args w,
    In prog ["/bin/gzip"; "/bin/mkdir"; "/bin/mv"] ->
    os_starts (prog :: args) w = true.

(** The functions of the script that call a utility, and those that call
    them, with a [subprocess.call] that can raise. *)
Module Launch.

Section Raising.

Context {W : Type} {os : OS W} {launcher : Launcher W}.

Notation "x <- c1 ;; c2" := (bind c1 (fun x => c2))
  (at level 61, c1 at next level, right associativity).
Notation "c1 ;; c2" := (bind c1 (fun _ => c2))
  (at level 61, right associativity).

(** [subprocess.call(argv)] *)
Definition call (argv : list string) : M W Z :=
  fun st =>
    if os_starts argv (world st) then
      let (rc, w) := os_call argv (world st) in
      (Ok rc, advance w (log (ECall argv) st))
    else (Raise OSError, st).

(** Lines 35-36 *)
Definition gzip (fname : string) : M W bool :=
  rc <- call (gzip_cmd ++ [fname]) ;;
  ret (rc =? 0)%Z.

(** Lines 38-39 *)
Definition mkdir (dname : string) : M W bool :=
  rc <- call (mkdir_cmd ++ [dname]) ;;
  ret (rc =? 0)%Z.

(** Lines 41-42 *)
Definition mv (src dst : string) : M W bool :=
  rc <- call (mv_cmd ++ [src; dst]) ;;
  ret (rc =? 0)%Z.

(** Lines 44-54 *)
Definition move_file (fname srcdir destbasedir : string) (verbose : bool) : M W bool :=
  match re_fname_groups fname with
  | None => ret false
  | Some gs =>
      base <- read_dstbasedir ;;
      segs <- strings gs ;;
      let dstdir := PosixPath.join base segs in
      let finish : M W bool :=
        when verbose (write (PosixPath.join dstdir [fname])) ;;
        mv (PosixPath.join srcdir [fname]) dstdir in
      present <- isdir dstdir ;;
      if negb present then
        made <- mkdir dstdir ;;
        if negb made then ret false else finish
      else finish
  end.

(** Lines 97-103 *)
Definition process_one_file (verbose : bool) (srcdir base : string) (fn : string)
  : M W unit :=
  when verbose (write (PosixPath.join srcdir [fn] ++ " -> ")) ;;
  zipped <- gzip (PosixPath.join srcdir [fn]) ;;
  (if zipped then
     _ <- move_file (fn ++ ".gz") srcdir base verbose ;; ret tt
   else ret tt) ;;
  when verbose (write nl ;; flush).

(** Lines 96-105 *)
Fixpoint for_files (verbose : bool) (srcdir base : string) (fnlist : list string)
  : M W unit :=
  match fnlist with
  | [] => ret tt
  | fn :: rest =>
      process_one_file verbose srcdir base fn ;;
      q <- read_quit ;;
      if q then ret tt else for_files verbose srcdir base rest
  end.

(** Lines 95-106 *)
Definition poll (verbose : bool) (srcdir base : string) : M W unit :=
  entries <- listdir srcdir ;;
  for_files verbose srcdir base (candidates entries) ;;
  sleep.

(** Lines 94-106 *)
Fixpoint main_loop (fuel : nat) (verbose : bool) (srcdir base : string)
  (st : state W) : option (res unit) * state W :=
  match fuel with
  | 0 => (None, st)
  | S fuel' =>
      match read_quit st with
      | (Ok true, st1) => (Some (Ok tt), st1)
      | (Ok false, st1) =>
          match poll verbose srcdir base st1 with
          | (Ok _, st2) => main_loop fuel' verbose srcdir base st2
          | (Raise e, st2) => (Some (Raise e), st2)
          end
      | (Raise e, st1) => (Some (Raise e), st1)
      end
  end.

(** Lines 70-106 *)
Definition main (fuel : nat) (opts : options) (args : list string) (w : W)
  : outcome * state W :=
  match startup opts args w with
  | inl stop => stop
  | inr (srcdir, base, st) => finish (main_loop fuel (verbose opts) srcdir base st)
  end.

End Raising.

End Launch.

(** ** What a computation adds to the trace *)

Section RunLogic.

Context {W : Type} {os : OS W}.

(** [st'] continues [st]: the trace grew by [new], the global
    [dstbasedir] is as it was, and [quit] changed only in that a signal
    may have set it. *)
Definition continues (st st' : state W) (new : list event) : Prop :=
  trace st' = (trace st ++ new)%list /\
  dstbasedir st' = dstbasedir st /\
  (quit st = true -> quit st' = true) /\
  ((forall w, os_signalled w = false) -> quit st' = quit st).

(** Once [dstbasedir] is bound, [c] returns normally, and what it adds to
    the trace satisfies [P]. *)
Definition runs {A : Type} (P : list event -> Prop) (c : M W A) : Prop :=
  forall st, dstbasedir st <> None ->
    exists a st' new, c st = (Ok a, st') /\ continues st st' new /\ P new.

End RunLogic.

(** A part of a file's processing other than its [gzip]: no call of
    [gzip], no read of the flag, no listing. *)
Definition aside (new : list event) : Prop :=
  flag_reads new = 0 /\ polls new = 0 /\ filter is_gzip_call (calls new) = [].

(** One file: one [gzip], and the rest aside. *)
Definition one_file (zip : list string) (new : list event) : Prop :=
  flag_reads new = 0 /\ polls new = 0 /\ filter is_gzip_call (calls new) = [zip].

(** A batch: one read of the flag for each file begun. *)
Definition batch (new : list event) : Prop :=
  flag_reads new = files_begun new /\ polls new = 0.

(** A round of the loop: one listing, and a batch. *)
Definition round (new : list event) : Prop :=
  flag_reads new = files_begun new /\ polls new = 1.

(** ** What a run is made of *)

(** Standard output: what verbose mode adds to a trace. *)
Definition is_output (e : event) : bool :=
  match e with
  | EWrite _ | EFlush => true
  | _ => false
  end.

(** A trace without what was written. *)
Definition erase (t : list event) : list event :=
  filter (fun e => negb (is_output e)) t.

(** How often a trace slept. *)
Fixpoint sleeps (t : list event) : nat :=
  match t with
  | [] => 0
  | ESleep :: t' => S (sleeps t')
  | _ :: t' => sleeps t'
  end.

Definition is_mv_call (argv : list string) : bool :=
  match argv with
  | prog :: _ => String.eqb prog "/bin/mv"
  | [] => false
  end.

Section Shapes.

Variables (v : bool) (srcdir base : string).

(** What processing the file [fn] adds to the trace, with [base] the value
    of the global: the [gzip] alone, between what verbose mode writes; or,
    for a compressed name that matches, the test of the archive directory
    after it, and then [mv], or [mkdir -p] alone, or [mkdir -p] and [mv]. *)
Definition file_events (fn : string) (new : list event) : Prop :=
  let src := PosixPath.join srcdir [fn] in
  let gz := fn ++ ".gz" in
  let pre := if v then [EWrite (src ++ " -> ")] else [] in
  let post := if v then [EWrite nl; EFlush] else [] in
  let zip := ECall (gzip_cmd ++ [src]) in
  new = (pre ++ zip :: post)%list \/
  exists p y m d,
    re_fname_groups gz = Some [Some p; Some y; Some m; Some d] /\
    let dstdir := PosixPath.join base [p; y; m; d] in
    let make := ECall (mkdir_cmd ++ [dstdir]) in
    let move :=
      ((if v then [EWrite (PosixPath.join dstdir [gz])] else []) ++
       [ECall (mv_cmd ++ [PosixPath.join srcdir [gz]; dstdir])])%list in
    new = (pre ++ zip :: EIsdir dstdir :: move ++ post)%list \/
    new = (pre ++ zip :: EIsdir dstdir :: make :: post)%list \/
    new = (pre ++ zip :: EIsdir dstdir :: make :: move ++ post)%list.

(** The trace of the files [done], each followed by the test of the flag. *)
Inductive batch_trace : list string -> list event -> Prop :=
| batch_none : batch_trace [] []
| batch_file (fn : string) (done : list string) (n more : list event) :
    file_events fn n ->
    batch_trace done more ->
    batch_trace (fn :: done) (n ++ EReadQuit :: more).

(** The trace of whole rounds of the loop: the test of the flag, the
    listing, the files done, all of them ending with [.fits], and the
    sleep. *)
Inductive loop_trace : list event -> Prop :=
| loop_none : loop_trace []
| loop_round (done : list string) (b more : list event) :
    Forall (fun fn => endswith fn ".fits" = true) done ->
    batch_trace done b ->
    loop_trace more ->
    loop_trace (EReadQuit :: EListdir srcdir :: b ++ ESleep :: more).

(** The commands the loop may run: [gzip -1] on a file of the source
    directory whose name ends with [.fits], and, for such a name that
    matches, [mkdir -p] of its archive directory and [mv] of the compressed
    file into it. *)
Definition script_call (argv : list string) : Prop :=
  exists fn,
    endswith fn ".fits" = true /\
    (argv = (gzip_cmd ++ [PosixPath.join srcdir [fn]])%list \/
     exists p y m d,
       re_fname_groups fn = Some [Some p; Some y; Some m; Some d] /\
       let dstdir := PosixPath.join base [p; y; m; d] in
       (argv = (mkdir_cmd ++ [dstdir])%list \/
        argv = (mv_cmd ++ [PosixPath.join srcdir [(fn ++ ".gz")%string]; dstdir])%list)).

(** What the loop may ask of the file system: the listing of the source
    directory, whether an archive directory is there, and its commands. *)
Definition script_event (e : event) : Prop :=
  match e with
  | ECall argv => script_call argv
  | EListdir path => path = srcdir
  | EIsdir path =>
      exists fn p y m d,
        endswith fn ".fits" = true /\
        re_fname_groups fn = Some [Some p; Some y; Some m; Some d] /\
        path = PosixPath.join base [p; y; m; d]
  | _ => True
  end.

End Shapes.

Section Quiet.

Context {W : Type} {os : OS W}.

(** The process with what it wrote left out of its trace. *)
Definition silent (st : state W) : state W :=
  mkState (world st) (dstbasedir st) (quit st) (erase (trace st)).

(** [c'] does what [c] does, but for writing. *)
Definition mirrors {A : Type} (c c' : M W A) : Prop :=
  forall st, c' (silent st) = (fst (c st), silent (snd (c st))).

End Quiet.

(** ** A small operating system to run the script on *)

Module Toy.

(** A clock that every call and every sleep advances, the tick at which a
    termination signal arrives (if one does), the directories that exist,
    the entries of the one source directory, and the programs that fail. *)
Record world : Type := mkWorld {
  clock : nat;
  sig_at : option nat;
  dirs : list string;
  entries : list string;
  broken : list string
}.

(** [posixpath.basename] *)
Fixpoint basename (path : string) : string :=
  match path with
  | "" => ""
  | String _ rest => if lacks "/" path then path else basename rest
  end.

Definition mem (x : string) (l : list string) : bool := existsb (String.eqb x) l.

Definition gzipped (name : string) (l : list string) : list string :=
  map (fun e => if String.eqb e name then e ++ ".gz" else e) l.

Definition removed (name : string) (l : list string) : list string :=
  filter (fun e => negb (String.eqb e name)) l.

(** Running a command takes a tick.  A broken program returns 1 and does
    nothing.  [mkdir -p d] makes [d]; [gzip -1 f] renames the entry of [f];
    [mv src dst] takes the entry of [src] out of the source directory. *)
Definition run (argv : list string) (w : world) : Z * world :=
  let tick ds es := mkWorld (S (clock w)) (sig_at w) ds es (broken w) in
  let same := tick (dirs w) (entries w) in
  match argv with
  | [] => (127%Z, same)
  | prog :: args =>
      if mem prog (broken w) then (1%Z, same)
      else if String.eqb prog "/bin/mkdir" then
        match args with
        | [_; d] => (0%Z, tick (d :: dirs w) (entries w))
        | _ => (1%Z, same)
        end
      else if String.eqb prog "/bin/gzip" then
        match args with
        | [_; f] => (0%Z, tick (dirs w) (gzipped (basename f) (entries w)))
        | _ => (1%Z, same)
        end
      else if String.eqb prog "/bin/mv" then
        match args with
        | [src; _] => (0%Z, tick (dirs w) (removed (basename src) (entries w)))
        | _ => (1%Z, same)
        end
      else (127%Z, same)
  end.

Definition abspath (path : string) : string :=
  if startswith path "/" then path else "/" ++ path.

Definition arrived (w : world) : bool :=
  match sig_at w with
  | Some t => (t <=? clock w)%nat
  | None => false
  end.

#[global] Instance toy_os : OS world := {
  os_call := run;
  os_isdir := fun path w => mem path (dirs w);
  os_listdir := fun _ w => entries w;
  os_abspath := fun path _ => abspath path;
  os_sleep := fun w => mkWorld (S (clock w)) (sig_at w) (dirs w) (entries w) (broken w);
  os_signalled := arrived
}.


(** [/data/in] holds one capture; [/data/out] is empty. *)
Definition w0 : world :=
  mkWorld 0 None ["/data/in"; "/data/out"] ["cam1_20120304-000000001.fits"] [].

(** Two captures, and a signal during the first call. *)
Definition w_signal : world :=
  mkWorld 0 (Some 1) ["/data/in"; "/data/out"]
    ["cam1_20120304-000000001.fits"; "cam2_20120304-000000002.fits"] [].

(** Two captures, and a [gzip] that fails. *)
Definition w_broken : world :=
  mkWorld 0 None ["/data/in"; "/data/out"]
    ["cam1_20120304-000000001.fits"; "cam2_20120304-000000002.fits"] ["/bin/gzip"].

(** The archive directory of the capture is there already. *)
Definition w_archived : world :=
  mkWorld 0 None ["/data/out/cam1/2012/03/04"; "/data/in"; "/data/out"]
    ["cam1_20120304-000000001.fits"] [].

(** Two captures, with the programs of [failing] returning 1. *)
Definition w_failing (failing : list string) : world :=
  mkWorld 0 None ["/data/in"; "/data/out"]
    ["cam1_20120304-000000001.fits"; "cam2_20120304-000000002.fits"] failing.

(** The programs that can be started: all but those of [absent]. *)
Definition without (absent : list string) : Launcher world := {|
  os_starts := fun argv _ =>
    match argv with
    | prog :: _ => negb (mem prog absent)
    | [] => false
    end
|}.

(** The process as it enters the loop on [w], started with
    [--outdir /data/out]. *)
Definition entered (w : world) : state world :=
  mkState w (Some "/data/out") false [].

End Toy.

(** * Proofs *)

Import PosixPath.

(** ** The model at work *)

Example match_capture :
  re_fname_groups "cam1_20120304-000000001.fits"
    = Some [Some "cam1"; Some "2012"; Some "03"; Some "04"].
Proof. reflexivity. Qed.

Example match_compressed :
  re_fname_groups "cam1_20120304-000000001.fits.gz"
    = Some [Some "cam1"; Some "2012"; Some "03"; Some "04"].
Proof. reflexivity. Qed.

(** The prefix is greedy: it runs up to the last underscore that leaves a
    date and a serial number behind it. *)
Example match_greedy :
  re_fname_groups "a_b_20110101-000000000.fits_20120304-000000001.fits"
    = Some [Some "a_b_20110101-000000000.fits"; Some "2012"; Some "03"; Some "04"].
Proof. reflexivity. Qed.

Example no_match_short_serial :
  re_fname_groups "cam1_20120304-00000001.fits" = None.
Proof. reflexivity. Qed.

Example no_match_other_suffix :
  re_fname_groups "cam1_20120304-000000001.fits.bz2" = None.
Proof. reflexivity. Qed.

(** A newline in the prefix is no match, a newline at the very end is. *)
Example no_match_newline_inside :
  re_fname_groups ("a" ++ nl ++ "b_20120304-000000001.fits") = None.
Proof. reflexivity. Qed.

Example match_newline_at_end :
  re_fname_groups ("cam1_20120304-000000001.fits.gz" ++ nl)
    = Some [Some "cam1"; Some "2012"; Some "03"; Some "04"].
Proof. reflexivity. Qed.

Example join_plain : join "/data/out" ["cam1"; "2012"; "03"; "04"] = "/data/out/cam1/2012/03/04".
Proof. reflexivity. Qed.

Example join_after_slash : join "/" ["cam1"; "2012"] = "/cam1/2012".
Proof. reflexivity. Qed.

Example join_empty_component : join "/data/out" [""] = "/data/out/".
Proof. reflexivity. Qed.

Example join_absolute_component : join "/data/out" ["/tmp"; "x"] = "/tmp/x".
Proof. reflexivity. Qed.

(** One capture, no signal: the first round archives it, the following
    rounds find nothing to do. *)
Example toy_run :
  let (o, st) := main 3 (mkOptions (Some "/data/in") (Some "/data/out") false) [] Toy.w0 in
  o = Running /\
  calls (trace st) =
    [ ["/bin/gzip"; "-1"; "/data/in/cam1_20120304-000000001.fits"];
      ["/bin/mkdir"; "-p"; "/data/out/cam1/2012/03/04"];
      ["/bin/mv"; "/data/in/cam1_20120304-000000001.fits.gz"; "/data/out/cam1/2012/03/04"] ] /\
  polls (trace st) = 3 /\
  Toy.entries (world st) = [] /\
  Toy.dirs (world st) = ["/data/out/cam1/2012/03/04"; "/data/in"; "/data/out"].
Proof. vm_compute. repeat split. Qed.

(** ** Strings *)

Module StrFacts.

Lemma append_assoc (a b c : string) : (a ++ b) ++ c = a ++ b ++ c.
Proof. induction a as [|x a IH]; simpl; [reflexivity | now rewrite IH]. Qed.

Lemma append_nil_r (a : string) : a ++ "" = a.
Proof. induction a as [|x a IH]; simpl; [reflexivity | now rewrite IH]. Qed.

Lemma length_append (a b : string) :
  String.length (a ++ b) = String.length a + String.length b.
Proof. induction a as [|x a IH]; simpl; [reflexivity | now rewrite IH]. Qed.

Lemma take_length_app (a b : string) : take (String.length a) (a ++ b) = a.
Proof. induction a as [|x a IH]; simpl; [now destruct b | now rewrite IH]. Qed.

(** What a group records when its pattern consumed [a] and left [b]. *)
Lemma take_consumed (a b : string) :
  take (String.length (a ++ b) - String.length b) (a ++ b) = a.
Proof.
  rewrite length_append.
  replace (String.length a + String.length b - String.length b)
    with (String.length a) by lia.
  apply take_length_app.
Qed.

Lemma lacks_app (c : ascii) (a b : string) :
  lacks c (a ++ b) = (lacks c a && lacks c b)%bool.
Proof.
  induction a as [|x a IH]; simpl; [reflexivity|].
  rewrite IH. now rewrite andb_assoc.
Qed.

Lemma digits_length (n : nat) : forall s, digits n s = true -> String.length s = n.
Proof.
  induction n as [|n IH]; intros [|c s] H; simpl in *; try discriminate; auto.
  apply andb_true_iff in H as [_ H]. now rewrite (IH s H).
Qed.

Lemma digits_lacks (c : ascii) (n : nat) :
  is_digit c = false -> forall s, digits n s = true -> lacks c s = true.
Proof.
  intros Hc. induction n as [|n IH]; intros [|x s] H; simpl in *; try discriminate; auto.
  apply andb_true_iff in H as [Hx H].
  rewrite (IH s H), andb_true_r.
  destruct (Ascii.eqb_spec x c) as [->|]; [congruence | reflexivity].
Qed.

Lemma endswith_app (p suf : string) : endswith (p ++ suf) suf = true.
Proof.
  induction p as [|x p IH].
  - destruct suf; cbn [append endswith]; now rewrite String.eqb_refl.
  - cbn [append endswith]. rewrite IH. now destruct (String.eqb _ _).
Qed.

Lemma endswith_inv (suf : string) :
  forall s, endswith s suf = true -> exists p, s = p ++ suf.
Proof.
  induction s as [|x s IH]; cbn [endswith]; intros H.
  - destruct (String.eqb_spec "" suf) as [E|]; [exists ""; exact E | discriminate].
  - destruct (String.eqb_spec (String x s) suf) as [E|].
    + exists "". exact E.
    + destruct (IH H) as [p ->]. now exists (String x p).
Qed.

End StrFacts.
Import StrFacts.

Module ReFacts.

Section DotStar.

(** Any item that behaves as the dot does; [exec n0 Dot] is one. *)
Variable one : step.
Hypothesis one_dot : forall s cs k,
  one s cs k = match s with
               | String c s' => if Ascii.eqb c newline then None else k s' cs
               | "" => None
               end.

Variable k : cont.

(** [.*] stops somewhere in its subject, past no newline. *)
Lemma star_dot_inv (r : caps) :
  forall fuel s cs,
    star_loop one k fuel s cs = Some r ->
    exists p t, s = p ++ t /\ lacks newline p = true /\ k t cs = Some r.
Proof.
  induction fuel as [|fuel IH]; intros s cs H; cbn [star_loop] in H.
  - now exists "", s.
  - rewrite one_dot in H. unfold orelse in H.
    destruct s as [|c s]; [now exists "", "" |].
    destruct (Ascii.eqb_spec c newline) as [->|Hc]; [now exists "", (String newline s) |].
    destruct (String.length s <? String.length (String c s))%nat;
      [| now exists "", (String c s)].
    destruct (star_loop one k fuel s cs) eqn:E.
    + injection H as <-. destruct (IH _ _ E) as (p & t & -> & Hp & Hk).
      exists (String c p), t. repeat split; auto. simpl. rewrite Hp.
      destruct (Ascii.eqb_spec c newline); [contradiction | reflexivity].
    + now exists "", (String c s).
Qed.

(** [.*] finds nothing where what follows it fails on every tail. *)
Lemma star_dot_none (cs : caps) :
  forall fuel s,
    (forall u v, s = u ++ v -> k v cs = None) ->
    star_loop one k fuel s cs = None.
Proof.
  induction fuel as [|fuel IH]; intros s H; cbn [star_loop].
  - apply (H "" s eq_refl).
  - rewrite (H "" s eq_refl), one_dot. unfold orelse.
    destruct s as [|c s]; [reflexivity|].
    destruct (Ascii.eqb c newline); [reflexivity|].
    destruct (String.length s <? String.length (String c s))%nat; [|reflexivity].
    rewrite IH; [reflexivity|].
    intros u v ->. apply (H (String c u) v eq_refl).
Qed.

(** [.*] is greedy, but gives back what it must: if what follows it needs
    a character [c0] first, [.*] stops at the last [c0] of the subject. *)
Lemma star_dot_last (cs r : caps) (c0 : ascii) (body : string) :
  (forall v, match v with String c _ => c <> c0 | "" => True end -> k v cs = None) ->
  lacks c0 body = true ->
  k (String c0 body) cs = Some r ->
  forall p fuel,
    lacks newline p = true ->
    String.length (p ++ String c0 body) <= fuel ->
    star_loop one k fuel (p ++ String c0 body) cs = Some r.
Proof.
  intros Hk Hbody Hr.
  assert (Hnone : forall fuel, star_loop one k fuel body cs = None).
  { intros fuel. apply star_dot_none. intros u v ->.
    rewrite lacks_app in Hbody. apply andb_true_iff in Hbody as [_ Hv].
    apply Hk. destruct v as [|c v]; [exact I|].
    simpl in Hv. apply andb_true_iff in Hv as [Hc _].
    destruct (Ascii.eqb_spec c c0); [discriminate | assumption]. }
  induction p as [|c p IH]; intros fuel Hp Hlen; cbn [append] in *.
  - destruct fuel as [|fuel]; cbn [star_loop]; [assumption|].
    rewrite one_dot, Hr.
    destruct (Ascii.eqb c0 newline); [reflexivity|].
    destruct (String.length body <? String.length (String c0 body))%nat; [|reflexivity].
    now rewrite Hnone.
  - destruct fuel as [|fuel]; [simpl in Hlen; lia|]. cbn [star_loop].
    rewrite one_dot.
    simpl in Hp. apply andb_true_iff in Hp as [Hc Hp].
    apply negb_true_iff in Hc. rewrite Hc.
    assert (Hlt : (String.length (p ++ String c0 body)
                   <? String.length (String c (p ++ String c0 body)))%nat = true)
      by (apply Nat.ltb_lt; simpl; lia).
    rewrite Hlt, IH; [reflexivity | assumption | simpl in Hlen; lia].
Qed.

End DotStar.

Section DigitRep.

(** Any item that behaves as [\d] does; [exec n0 Digit] is one. *)
Variable one : step.
Hypothesis one_digit : forall s cs k,
  one s cs k = match s with
               | String c s' => if is_digit c then k s' cs else None
               | "" => None
               end.

Variable k : cont.

(** [\d{n}] takes [n] digits and nothing else. *)
Lemma rep_digit_inv (r : caps) :
  forall n s cs,
    rep_loop one k n s cs = Some r ->
    exists ds t, s = ds ++ t /\ digits n ds = true /\ k t cs = Some r.
Proof.
  induction n as [|n IH]; intros s cs H; cbn [rep_loop] in H.
  - now exists "", s.
  - rewrite one_digit in H.
    destruct s as [|c s]; [discriminate|].
    destruct (is_digit c) eqn:Hc; [|discriminate].
    destruct (IH _ _ H) as (ds & t & -> & Hds & Hk).
    exists (String c ds), t. repeat split; auto. simpl. now rewrite Hc, Hds.
Qed.

Lemma rep_digit_intro :
  forall n ds t cs,
    digits n ds = true ->
    rep_loop one k n (ds ++ t) cs = k t cs.
Proof.
  induction n as [|n IH]; intros [|c ds] t cs H; cbn [rep_loop append];
    simpl in H; try discriminate; auto.
  rewrite one_digit.
  apply andb_true_iff in H as [Hc H]. rewrite Hc. now apply IH.
Qed.

End DigitRep.

End ReFacts.
Import ReFacts.

(** ** The pattern [re_fname] *)

Module PatternFacts.

(** A literal character of the pattern met the subject. *)
Ltac literal H :=
  match type of H with
  | match ?t with "" => None | String _ _ => _ end = Some _ =>
      let c := fresh "c" in
      let t' := fresh "t" in
      destruct t as [|c t']; [discriminate H|];
      match type of H with
      | (if Ascii.eqb c ?c0 then _ else None) = Some _ =>
          destruct (Ascii.eqb_spec c c0) as [->|]; [|discriminate H]
      end
  end.

(** A group of digits of the pattern met the subject. *)
Ltac digit_group H ds Hds :=
  let t := fresh "t" in
  apply (rep_digit_inv _ (fun _ _ _ => eq_refl)) in H as (ds & t & -> & Hds & H);
  cbv beta in H; rewrite ?take_consumed in H.

Lemma eol_inv (s : string) (cs r : caps) :
  match s with
  | "" => Some cs
  | String c "" => if Ascii.eqb c newline then Some cs else None
  | String _ (String _ _) => None
  end = Some r ->
  (s = "" \/ s = nl) /\ r = cs.
Proof.
  destruct s as [|c [|c' s]]; try discriminate.
  - intros [= <-]. auto.
  - destruct (Ascii.eqb_spec c newline) as [->|]; [|discriminate].
    intros [= <-]. auto.
Qed.

Lemma re_fname_sound (s : string) (cs : caps) :
  rmatch re_fname s = Some cs ->
  exists p y m d n gz e,
    s = fits_name p y m d n gz e /\
    cs = [(4, d); (3, m); (2, y); (1, p)] /\
    lacks newline p = true /\
    digits 4 y = true /\ digits 2 m = true /\ digits 2 d = true /\
    digits 9 n = true /\
    (gz = "" \/ gz = ".gz") /\ (e = "" \/ e = nl).
Proof.
  unfold rmatch, re_fname. cbn [seqs exec]. rewrite Nat.eqb_refl.
  intros H.
  apply (star_dot_inv _ (fun _ _ _ => eq_refl)) in H as (p & t & -> & Hp & H).
  rewrite take_consumed in H.
  literal H.
  digit_group H y Hy. digit_group H m Hm. digit_group H d Hd.
  literal H.
  digit_group H n Hn.
  do 5 literal H.
  unfold orelse in H.
  match type of H with match ?x with _ => _ end = _ => destruct x as [r|] eqn:E end.
  - injection H as ->.
    do 3 literal E.
    apply eol_inv in E as [He ->].
    exists p, y, m, d, n, ".gz". eexists.
    split; [unfold fits_name; cbn [append]; reflexivity|].
    repeat split; auto.
  - apply eol_inv in H as [He ->].
    exists p, y, m, d, n, "". eexists.
    split; [unfold fits_name; cbn [append]; reflexivity|].
    repeat split; auto.
Qed.

Lemma is_digit_lacks (c : ascii) (n : nat) (s : string) :
  is_digit c = false -> digits n s = true -> lacks c s = true.
Proof. intros Hc. now apply digits_lacks. Qed.

Lemma re_fname_complete (p y m d n gz e : string) :
  lacks newline p = true ->
  digits 4 y = true -> digits 2 m = true -> digits 2 d = true ->
  digits 9 n = true ->
  gz = "" \/ gz = ".gz" -> e = "" \/ e = nl ->
  rmatch re_fname (fits_name p y m d n gz e) = Some [(4, d); (3, m); (2, y); (1, p)].
Proof.
  intros Hp Hy Hm Hd Hn Hgz He.
  unfold rmatch, re_fname, fits_name. cbn [seqs exec append]. rewrite Nat.eqb_refl.
  apply (star_dot_last _ (fun _ _ _ => eq_refl)); auto.
  - intros [|c v] Hc; [reflexivity|].
    destruct (Ascii.eqb_spec c "_"); [contradiction | reflexivity].
  - rewrite !lacks_app.
    rewrite (is_digit_lacks "_" 4 y), (is_digit_lacks "_" 2 m), (is_digit_lacks "_" 2 d)
      by (assumption || reflexivity).
    cbn [lacks andb]. rewrite lacks_app, (is_digit_lacks "_" 9 n) by (assumption || reflexivity).
    destruct Hgz as [-> | ->], He as [-> | ->]; reflexivity.
  - rewrite take_consumed. rewrite Ascii.eqb_refl.
    rewrite (rep_digit_intro _ (fun _ _ _ => eq_refl)) by assumption.
    rewrite take_consumed.
    rewrite (rep_digit_intro _ (fun _ _ _ => eq_refl)) by assumption.
    rewrite take_consumed.
    rewrite (rep_digit_intro _ (fun _ _ _ => eq_refl)) by assumption.
    rewrite take_consumed.
    rewrite Ascii.eqb_refl.
    rewrite (rep_digit_intro _ (fun _ _ _ => eq_refl)) by assumption.
    destruct Hgz as [-> | ->], He as [-> | ->]; reflexivity.
Qed.

End PatternFacts.
Import PatternFacts.

(** ** Paths *)

Module PathFacts.

Lemma split_slash_cons (path : string) : exists x xs, split_slash path = x :: xs.
Proof.
  induction path as [|c path (x & xs & IH)]; simpl; [now eauto|].
  destruct (Ascii.eqb c "/"); [now eauto|]. rewrite IH. eauto.
Qed.

Lemma split_slash_app (a b : string) :
  split_slash (a ++ String "/" b) = (split_slash a ++ split_slash b)%list.
Proof.
  induction a as [|c a IH]; simpl; [reflexivity|].
  destruct (Ascii.eqb c "/"); simpl in *; [now rewrite IH|].
  rewrite IH. destruct (split_slash_cons a) as (x & xs & ->). reflexivity.
Qed.

Lemma segments_app (a b : string) :
  segments (a ++ String "/" b) = (segments a ++ segments b)%list.
Proof. unfold segments. now rewrite split_slash_app, filter_app. Qed.

Lemma split_slash_atom (s : string) : lacks "/" s = true -> split_slash s = [s].
Proof.
  induction s as [|c s IH]; simpl; [reflexivity|].
  intros H. apply andb_true_iff in H as [Hc H].
  apply negb_true_iff in Hc. rewrite Hc, (IH H). reflexivity.
Qed.

(** A name without a slash is its own and only segment. *)
Lemma segments_atom (s : string) :
  lacks "/" s = true -> s <> "" -> segments s = [s].
Proof.
  intros H Hs. unfold segments. rewrite (split_slash_atom s H). simpl.
  destruct (String.eqb_spec s ""); [contradiction | reflexivity].
Qed.

Lemma lacks_not_abs (s : string) : lacks "/" s = true -> startswith s "/" = false.
Proof.
  destruct s as [|c s]; simpl; [reflexivity|].
  intros H. apply andb_true_iff in H as [Hc _]. apply negb_true_iff in Hc.
  now rewrite Hc.
Qed.

Lemma startswith_app (a b : string) :
  a <> "" -> startswith (a ++ b) "/" = startswith a "/".
Proof.
  destruct a as [|c a]; [contradiction|]. intros _. reflexivity.
Qed.

Section Join.

Variables path b : string.
Hypothesis relative : startswith b "/" = false.

(** Joining a relative component adds its segments. *)
Lemma segments_join2 :
  segments (join2 path b) = (segments path ++ segments b)%list.
Proof.
  unfold join2. rewrite relative.
  destruct (String.eqb_spec path "") as [->|Hne]; simpl; [reflexivity|].
  destruct (endswith path "/") eqn:E.
  - apply endswith_inv in E as [q ->].
    rewrite append_assoc. cbn [append]. rewrite !segments_app.
    unfold segments at 3. simpl. now rewrite List.app_nil_r.
  - apply segments_app.
Qed.

Lemma abs_join2 : path <> "" -> startswith (join2 path b) "/" = startswith path "/".
Proof.
  intros Hne. unfold join2. rewrite relative.
  destruct (_ || _)%bool; now apply startswith_app.
Qed.

Lemma join2_nonempty : path <> "" -> join2 path b <> "".
Proof.
  intros Hne. unfold join2. rewrite relative.
  destruct path; [contradiction|]. now destruct (_ || _)%bool.
Qed.

End Join.

(** An empty component before another one leaves no trace. *)
Lemma join2_empty (a : string) :
  join2 a "" = if (String.eqb a "" || endswith a "/")%bool then a else a ++ "/".
Proof. unfold join2. simpl. destruct (_ || _)%bool; [apply append_nil_r | reflexivity]. Qed.

Lemma join_empty_first (a b : string) (rest : list string) :
  join a ("" :: b :: rest) = join a (b :: rest).
Proof.
  unfold join. simpl. f_equal. rewrite join2_empty.
  destruct (String.eqb a "" || endswith a "/")%bool eqn:E; [reflexivity|].
  unfold join2. destruct (startswith b "/"); [reflexivity|].
  rewrite E, (endswith_app a "/"), orb_true_r. apply append_assoc.
Qed.

Lemma digits_atom (n : nat) (s : string) :
  digits (S n) s = true -> lacks "/" s = true /\ s <> "".
Proof.
  intros H. split; [now apply (digits_lacks "/" (S n)) |].
  destruct s; simpl in H; [discriminate | discriminate].
Qed.

End PathFacts.
Import PathFacts.

(** ** Traces and [move_file] *)

Module TraceFacts.

Lemma calls_app (a b : list event) : calls (a ++ b) = (calls a ++ calls b)%list.
Proof. induction a as [|[] a IH]; simpl; now rewrite ?IH. Qed.

Lemma output_app (a b : list event) : output (a ++ b) = output a ++ output b.
Proof. induction a as [|[] a IH]; simpl; now rewrite ?IH, ?append_assoc. Qed.

Lemma flag_reads_app (a b : list event) :
  flag_reads (a ++ b) = flag_reads a + flag_reads b.
Proof. induction a as [|[] a IH]; simpl; now rewrite ?IH. Qed.

Lemma polls_app (a b : list event) : polls (a ++ b) = polls a + polls b.
Proof. induction a as [|[] a IH]; simpl; now rewrite ?IH. Qed.

Lemma files_begun_app (a b : list event) :
  files_begun (a ++ b) = files_begun a + files_begun b.
Proof. unfold files_begun. now rewrite calls_app, filter_app, List.length_app. Qed.

End TraceFacts.

Import TraceFacts.

Section ScriptFacts.

Context {W : Type} {os : OS W}.

Notation "x <- c1 ;; c2" := (bind c1 (fun x => c2))
  (at level 61, c1 at next level, right associativity).
Notation "c1 ;; c2" := (bind c1 (fun _ => c2))
  (at level 61, right associativity).

(** What [move_file] does once the name matched and the global is bound. *)
Lemma move_file_matched (fname srcdir x : string) (v : bool)
  (base p y m d : string) (st : state W) :
  re_fname_groups fname = Some [Some p; Some y; Some m; Some d] ->
  dstbasedir st = Some base ->
  move_file fname srcdir x v st =
    (let dstdir := join base [p; y; m; d] in
     let finish :=
       when v (write (join dstdir [fname])) ;;
       mv (join srcdir [fname]) dstdir in
     present <- isdir dstdir ;;
     if negb present then
       made <- mkdir dstdir ;;
       if negb made then ret false else finish
     else finish) st.
Proof.
  intros Hm Hb. unfold move_file. rewrite Hm.
  unfold bind at 1. unfold read_dstbasedir. rewrite Hb. reflexivity.
Qed.

Lemma move_file_unmatched (fname srcdir x : string) (v : bool) (st : state W) :
  re_fname_groups fname = None ->
  move_file fname srcdir x v st = (Ok false, st).
Proof. intros Hm. unfold move_file. now rewrite Hm. Qed.

End ScriptFacts.

(** ** File names *)

Module NameFacts.

Lemma append_last_inj (a b : string) (c c' : ascii) :
  a ++ String c "" = b ++ String c' "" -> c = c'.
Proof.
  revert b. induction a as [|x a IH]; intros [|z b] H; simpl in H.
  - now injection H.
  - injection H as _ H. now destruct b.
  - injection H as _ H. now destruct a.
  - injection H as _ H. now apply (IH b).
Qed.

(** The name up to [.fits], and what follows. *)
Lemma fits_name_tail (p y m d n gz e : string) :
  fits_name p y m d n gz e = fits_name p y m d n "" "" ++ gz ++ e.
Proof. unfold fits_name. now rewrite !append_assoc. Qed.

Lemma fits_name_last (p y m d n : string) :
  exists a, fits_name p y m d n "" "" = a ++ "s".
Proof.
  exists (p ++ "_" ++ y ++ m ++ d ++ "-" ++ n ++ ".fit").
  unfold fits_name. now rewrite !append_assoc.
Qed.

(** A subject of the pattern that ends with [.fits] has nothing after it. *)
Lemma fits_name_endswith (p y m d n gz e : string) :
  gz = "" \/ gz = ".gz" -> e = "" \/ e = nl ->
  endswith (fits_name p y m d n gz e) ".fits" = true ->
  gz = "" /\ e = "".
Proof.
  intros Hgz He H. apply endswith_inv in H as [q H].
  rewrite fits_name_tail in H.
  assert (Hq : q ++ ".fits" = (q ++ ".fit") ++ "s") by now rewrite append_assoc.
  rewrite Hq in H. clear Hq.
  destruct Hgz as [-> | ->], He as [-> | ->]; auto; exfalso.
  - apply append_last_inj in H. discriminate.
  - change (".gz" ++ "") with (".g" ++ "z") in H.
    rewrite <- append_assoc in H. apply append_last_inj in H. discriminate.
  - change (".gz" ++ nl) with (".gz" ++ String newline "") in H.
    rewrite <- append_assoc in H. apply append_last_inj in H. discriminate.
Qed.

(** Likewise for a name that ends with [.gz]: no newline after it. *)
Lemma fits_name_endswith_gz (p y m d n gz e : string) :
  gz = "" \/ gz = ".gz" -> e = "" \/ e = nl ->
  endswith (fits_name p y m d n gz e) ".gz" = true ->
  gz = ".gz" /\ e = "".
Proof.
  intros Hgz He H. apply endswith_inv in H as [q H].
  rewrite fits_name_tail in H.
  assert (Hq : q ++ ".gz" = (q ++ ".g") ++ "z") by now rewrite append_assoc.
  rewrite Hq in H. clear Hq.
  destruct (fits_name_last p y m d n) as [a Ha]. rewrite Ha in H.
  destruct Hgz as [-> | ->], He as [-> | ->]; auto; exfalso.
  - rewrite append_nil_r in H. apply append_last_inj in H. discriminate.
  - change ("" ++ nl) with (String newline "") in H.
    apply append_last_inj in H. discriminate.
  - change (".gz" ++ nl) with (".gz" ++ String newline "") in H.
    rewrite <- append_assoc in H. apply append_last_inj in H. discriminate.
Qed.

Lemma re_fname_groups_sound (s : string) (gs : list (option string)) :
  re_fname_groups s = Some gs ->
  exists p y m d n gz e,
    gs = [Some p; Some y; Some m; Some d] /\
    s = fits_name p y m d n gz e /\
    lacks newline p = true /\
    digits 4 y = true /\ digits 2 m = true /\ digits 2 d = true /\
    digits 9 n = true /\
    (gz = "" \/ gz = ".gz") /\ (e = "" \/ e = nl).
Proof.
  unfold re_fname_groups. destruct (rmatch re_fname s) as [cs|] eqn:E; [|discriminate].
  intros [= <-].
  destruct (re_fname_sound _ _ E) as (p & y & m & d & n & gz & e & -> & -> & H).
  exists p, y, m, d, n, gz, e. auto.
Qed.

Lemma re_fname_groups_complete (p y m d n gz e : string) :
  lacks newline p = true ->
  digits 4 y = true -> digits 2 m = true -> digits 2 d = true ->
  digits 9 n = true ->
  gz = "" \/ gz = ".gz" -> e = "" \/ e = nl ->
  re_fname_groups (fits_name p y m d n gz e) = Some [Some p; Some y; Some m; Some d].
Proof.
  intros. unfold re_fname_groups. now rewrite re_fname_complete.
Qed.

(** Compressing a name that matches leaves the groups as they are. *)
Lemma gz_keeps_groups (fn : string) (gs : list (option string)) :
  re_fname_groups fn = Some gs ->
  endswith fn ".fits" = true ->
  re_fname_groups (fn ++ ".gz") = Some gs.
Proof.
  intros Hm He.
  destruct (re_fname_groups_sound _ _ Hm)
    as (p & y & m & d & n & gz & e & -> & -> & Hp & Hy & Hmo & Hd & Hn & Hgz & Hnl).
  destruct (fits_name_endswith _ _ _ _ _ _ _ Hgz Hnl He) as [-> ->].
  replace (fits_name p y m d n "" "" ++ ".gz") with (fits_name p y m d n ".gz" "")
    by now rewrite (fits_name_tail _ _ _ _ _ ".gz").
  apply re_fname_groups_complete; auto.
Qed.

(** Among names that end with [.gz], the pattern takes only those of the
    shape the specification gives. *)
Lemma gz_match_shape (s : string) :
  endswith s ".gz" = true ->
  re_fname_groups s <> None ->
  spec_filename_shape s.
Proof.
  intros He Hm.
  destruct (re_fname_groups s) as [gs|] eqn:E; [|contradiction].
  destruct (re_fname_groups_sound _ _ E)
    as (p & y & m & d & n & gz & e & _ & -> & Hp & Hy & Hmo & Hd & Hn & Hgz & Hnl).
  destruct (fits_name_endswith_gz _ _ _ _ _ _ _ Hgz Hnl He) as [-> ->].
  exists p, y, m, d, n, ".gz". auto 10.
Qed.

(** A name of the specification's shape ends with [.fits] or with [.gz]. *)
Lemma shape_ends (s : string) :
  spec_filename_shape s ->
  endswith s ".fits" = true \/ endswith s ".gz" = true.
Proof.
  intros (p & y & m & d & n & gz & -> & _ & _ & _ & _ & [-> | ->]).
  - left. replace (fits_name p y m d n "" "")
      with ((p ++ "_" ++ y ++ m ++ d ++ "-" ++ n) ++ ".fits")
      by (unfold fits_name; now rewrite !append_assoc).
    apply endswith_app.
  - right. replace (fits_name p y m d n ".gz" "")
      with ((p ++ "_" ++ y ++ m ++ d ++ "-" ++ n ++ ".fits") ++ ".gz")
      by (unfold fits_name; now rewrite !append_assoc).
    apply endswith_app.
Qed.

(** It has at least the 24 characters after the prefix. *)
Lemma shape_min_length (s : string) :
  spec_filename_shape s -> 24 <= String.length s.
Proof.
  intros (p & y & m & d & n & gz & -> & Hy & Hm & Hd & Hn & _).
  unfold fits_name. rewrite !length_append.
  rewrite (digits_length _ _ Hy), (digits_length _ _ Hm), (digits_length _ _ Hd),
    (digits_length _ _ Hn).
  simpl. lia.
Qed.

End NameFacts.
Import NameFacts.

Module PlaceFacts.

(** One more relative component, joined on one side and written after a
    slash on the other. *)
Lemma same_place_step (path lit b : string) :
  same_place path lit /\ path <> "" /\ lit <> "" ->
  startswith b "/" = false ->
  same_place (join2 path b) (lit ++ "/" ++ b) /\
  join2 path b <> "" /\ lit ++ "/" ++ b <> "".
Proof.
  intros ((Habs & Hseg) & Hp & Hl) Hb. repeat split.
  - rewrite (abs_join2 _ _ Hb Hp), (startswith_app lit _ Hl). exact Habs.
  - rewrite (segments_join2 _ _ Hb). cbn [append].
    rewrite segments_app. now rewrite Hseg.
  - now apply join2_nonempty.
  - destruct lit; [contradiction | discriminate].
Qed.

Lemma digits_relative (n : nat) (s : string) :
  digits (S n) s = true -> startswith s "/" = false.
Proof. intros H. apply lacks_not_abs. now apply (digits_atom n). Qed.

(** The archive directory is [<base>/<p>/<y>/<m>/<d>]. *)
Lemma archive_place (base p y m d name : string) :
  base <> "" ->
  lacks "/" p = true ->
  digits 4 y = true -> digits 2 m = true -> digits 2 d = true ->
  lacks "/" name = true ->
  same_place (join base [p; y; m; d])
             (base ++ "/" ++ p ++ "/" ++ y ++ "/" ++ m ++ "/" ++ d) /\
  same_place (join (join base [p; y; m; d]) [name])
             (base ++ "/" ++ p ++ "/" ++ y ++ "/" ++ m ++ "/" ++ d ++ "/" ++ name).
Proof.
  intros Hb Hp Hy Hm Hd Hn.
  assert (H0 : same_place base base /\ base <> "" /\ base <> "")
    by (repeat split; auto).
  pose proof (same_place_step _ _ p H0 (lacks_not_abs _ Hp)) as H1.
  pose proof (same_place_step _ _ y H1 (digits_relative _ _ Hy)) as H2.
  pose proof (same_place_step _ _ m H2 (digits_relative _ _ Hm)) as H3.
  pose proof (same_place_step _ _ d H3 (digits_relative _ _ Hd)) as H4.
  pose proof (same_place_step _ _ name H4 (lacks_not_abs _ Hn)) as H5.
  rewrite !append_assoc in H4, H5. split; [apply H4 | apply H5].
Qed.

End PlaceFacts.
Import PlaceFacts.

(** ** Running the script *)

Create HintDb aside discriminated.

Section Runs.

Context {W : Type} {os : OS W}.

Lemma continues_trans (st1 st2 st3 : state W) (n1 n2 : list event) :
  continues st1 st2 n1 -> continues st2 st3 n2 -> continues st1 st3 (n1 ++ n2).
Proof.
  intros (Ht1 & Hd1 & Hq1 & Hs1) (Ht2 & Hd2 & Hq2 & Hs2). repeat split.
  - now rewrite Ht2, Ht1, List.app_assoc.
  - congruence.
  - auto.
  - intros H. now rewrite (Hs2 H), (Hs1 H).
Qed.

Lemma continues_log (e : event) (st : state W) : continues st (log e st) [e].
Proof. repeat split; auto. Qed.

Lemma continues_advance (w : W) (st : state W) : continues st (advance w st) [].
Proof.
  repeat split; simpl; auto.
  - now rewrite List.app_nil_r.
  - now intros ->.
  - intros H. now rewrite H, orb_false_r.
Qed.

Lemma runs_weaken {A : Type} (P Q : list event -> Prop) (c : M W A) :
  (forall new, P new -> Q new) -> runs P c -> runs Q c.
Proof.
  intros HPQ Hc st Hd. destruct (Hc st Hd) as (a & st' & new & E & Hk & HP).
  exists a, st', new. auto.
Qed.

Lemma runs_bind {A B : Type} (P Q : list event -> Prop) (c : M W A) (f : A -> M W B) :
  runs P c -> (forall a, runs Q (f a)) ->
  runs (fun new => exists n1 n2, new = (n1 ++ n2)%list /\ P n1 /\ Q n2) (bind c f).
Proof.
  intros Hc Hf st Hd.
  destruct (Hc st Hd) as (a & st1 & n1 & E1 & Hk1 & HP).
  assert (Hd1 : dstbasedir st1 <> None) by (destruct Hk1 as (_ & -> & _); exact Hd).
  destruct (Hf a st1 Hd1) as (b & st2 & n2 & E2 & Hk2 & HQ).
  exists b, st2, (n1 ++ n2)%list. unfold bind. rewrite E1, E2.
  split; [reflexivity|]. split; [now apply (continues_trans _ st1)|].
  exists n1, n2. auto.
Qed.

Lemma runs_ret {A : Type} (a : A) : runs (fun new => new = []) (ret a).
Proof.
  intros st _. exists a, st, []. split; [reflexivity|]. split; [|reflexivity].
  repeat split; auto. now rewrite List.app_nil_r.
Qed.

Lemma runs_log {A : Type} (a : state W -> A) (e : event) :
  runs (fun new => new = [e]) (fun st => (Ok (a st), log e st)).
Proof.
  intros st _. exists (a st), (log e st), [e].
  split; [reflexivity|]. split; [apply continues_log | reflexivity].
Qed.

Lemma runs_call (argv : list string) : runs (fun new => new = [ECall argv]) (call argv).
Proof.
  intros st _. unfold call. destruct (os_call argv (world st)) as [rc w].
  exists rc, (advance w (log (ECall argv) st)), ([ECall argv] ++ [])%list.
  split; [reflexivity|]. split; [|reflexivity].
  apply (continues_trans _ (log (ECall argv) st));
    [apply continues_log | apply continues_advance].
Qed.

Lemma runs_sleep : runs (fun new => new = [ESleep]) sleep.
Proof.
  intros st _. unfold sleep.
  exists tt, (advance (os_sleep (world st)) (log ESleep st)), ([ESleep] ++ [])%list.
  split; [reflexivity|]. split; [|reflexivity].
  apply (continues_trans _ (log ESleep st));
    [apply continues_log | apply continues_advance].
Qed.

Lemma aside_nil : aside [].
Proof. repeat split. Qed.

Lemma aside_app (n1 n2 : list event) : aside n1 -> aside n2 -> aside (n1 ++ n2).
Proof.
  intros (R1 & P1 & G1) (R2 & P2 & G2). unfold aside.
  rewrite flag_reads_app, polls_app, calls_app, filter_app, R1, R2, P1, P2, G1, G2.
  auto.
Qed.

Lemma aside_bind {A B : Type} (c : M W A) (f : A -> M W B) :
  runs aside c -> (forall a, runs aside (f a)) -> runs aside (bind c f).
Proof.
  intros Hc Hf. eapply runs_weaken; [|apply (runs_bind _ _ _ _ Hc Hf)].
  intros new (n1 & n2 & -> & H1 & H2). now apply aside_app.
Qed.

Lemma aside_ret {A : Type} (a : A) : runs aside (ret a).
Proof. eapply runs_weaken; [|apply runs_ret]. intros new ->. apply aside_nil. Qed.

Lemma aside_write (text : string) : runs aside (write text).
Proof.
  eapply runs_weaken; [|apply (runs_log (fun _ => tt) (EWrite text))].
  intros new ->. repeat split.
Qed.

Lemma aside_flush : runs aside flush.
Proof.
  eapply runs_weaken; [|apply (runs_log (fun _ => tt) EFlush)].
  intros new ->. repeat split.
Qed.

Lemma aside_isdir (path : string) : runs aside (isdir path).
Proof.
  eapply runs_weaken; [|apply (runs_log (fun st => os_isdir path (world st)) (EIsdir path))].
  intros new ->. repeat split.
Qed.

Lemma aside_when (b : bool) (c : M W unit) : runs aside c -> runs aside (when b c).
Proof. destruct b; [auto | intros _; apply aside_ret]. Qed.

Lemma aside_call (argv : list string) :
  is_gzip_call argv = false -> runs aside (call argv).
Proof.
  intros H. eapply runs_weaken; [|apply runs_call].
  intros new ->. repeat split. simpl. now rewrite H.
Qed.

Lemma aside_mkdir (dname : string) : runs aside (mkdir dname).
Proof.
  apply aside_bind; [now apply aside_call | intros; apply aside_ret].
Qed.

Lemma aside_mv (src dst : string) : runs aside (mv src dst).
Proof.
  apply aside_bind; [now apply aside_call | intros; apply aside_ret].
Qed.

Lemma aside_read_dstbasedir : runs aside read_dstbasedir.
Proof.
  intros st Hd. unfold read_dstbasedir.
  destruct (dstbasedir st) as [b|] eqn:E; [|contradiction].
  exists b, st, []. split; [reflexivity|]. split; [|apply aside_nil].
  repeat split; auto. now rewrite List.app_nil_r.
Qed.

Hint Resolve aside_ret aside_write aside_flush aside_isdir aside_mkdir aside_mv
  aside_read_dstbasedir aside_when : aside.

(** With the global bound, [move_file] returns a boolean, whatever the
    name and whatever the utilities answer. *)
Lemma aside_move_file (fname srcdir x : string) (v : bool) :
  runs aside (move_file fname srcdir x v).
Proof.
  unfold move_file.
  destruct (re_fname_groups fname) as [gs|] eqn:E; [|auto with aside].
  destruct (re_fname_groups_sound _ _ E) as (p & y & m & d & _ & _ & _ & -> & _).
  apply aside_bind; [auto with aside | intros base].
  apply aside_bind;
    [repeat (apply aside_bind; [auto with aside | intros ?]); auto with aside |].
  intros segs.
  apply aside_bind; [auto with aside | intros present].
  assert (Hfin : runs aside (bind (when v (write (join (join base segs) [fname])))
                   (fun _ => mv (join srcdir [fname]) (join base segs))))
    by (apply aside_bind; auto with aside).
  destruct present; cbn [negb]; [exact Hfin|].
  apply aside_bind; [auto with aside | intros made].
  destruct made; cbn [negb]; [exact Hfin | auto with aside].
Qed.

Lemma runs_process_one_file (v : bool) (srcdir base fn : string) :
  runs (one_file (gzip_cmd ++ [join srcdir [fn]])) (process_one_file v srcdir base fn).
Proof.
  unfold process_one_file.
  eapply runs_weaken;
    [|apply (runs_bind aside (one_file (gzip_cmd ++ [join srcdir [fn]])))].
  - intros new (n1 & n2 & -> & (R1 & P1 & G1) & (R2 & P2 & G2)). unfold one_file.
    rewrite flag_reads_app, polls_app, calls_app, filter_app, R1, R2, P1, P2, G1, G2.
    auto.
  - apply aside_when, aside_write.
  - intros _.
    eapply runs_weaken;
      [|apply (runs_bind (fun new => new = [ECall (gzip_cmd ++ [join srcdir [fn]])]) aside)].
    + intros new (n1 & n2 & -> & -> & (R2 & P2 & G2)). unfold one_file.
      rewrite flag_reads_app, polls_app, calls_app, filter_app, R2, P2, G2.
      repeat split.
    + unfold gzip. eapply runs_weaken;
        [|apply (runs_bind _ _ _ _ (runs_call _) (fun rc => runs_ret (rc =? 0)%Z))].
      intros new (n1 & n2 & -> & -> & ->). reflexivity.
    + intros zipped. apply aside_bind.
      * destruct zipped; [|apply aside_ret].
        apply aside_bind; [apply aside_move_file | intros; apply aside_ret].
      * intros _. apply aside_when, aside_bind; [apply aside_write | intros; apply aside_flush].
Qed.

End Runs.

Section Loops.

Context {W : Type} {os : OS W}.

Variables (v : bool) (srcdir base : string).

Lemma runs_read_quit : runs (fun new => new = [EReadQuit]) (@read_quit W).
Proof. apply (runs_log (fun st => quit st) EReadQuit). Qed.

Lemma runs_for_files (fnlist : list string) :
  runs batch (for_files v srcdir base fnlist).
Proof.
  induction fnlist as [|fn rest IH]; cbn [for_files].
  - eapply runs_weaken; [|apply runs_ret]. intros new ->. now split.
  - eapply runs_weaken;
      [|apply (runs_bind _ (fun new => flag_reads new = S (files_begun new)
                                       /\ polls new = 0)
                         _ _ (runs_process_one_file v srcdir base fn))].
    + intros new (n1 & n2 & -> & (R1 & P1 & G1) & (R2 & P2)). unfold batch.
      assert (F1 : files_begun n1 = 1) by (unfold files_begun; now rewrite G1).
      rewrite flag_reads_app, polls_app, files_begun_app, R1, R2, P1, P2, F1.
      split; lia.
    + intros _. eapply runs_weaken; [|apply (runs_bind _ batch _ _ runs_read_quit)].
      * intros new (n1 & n2 & -> & -> & (R2 & P2)).
        rewrite flag_reads_app, polls_app, files_begun_app, R2, P2. simpl. auto.
      * intros q. destruct q; [|exact IH].
        eapply runs_weaken; [|apply runs_ret]. intros new ->. now split.
Qed.

Lemma runs_poll : runs round (poll v srcdir base).
Proof.
  unfold poll.
  eapply runs_weaken;
    [|apply (runs_bind (fun new => new = [EListdir srcdir]) batch)].
  - intros new (n1 & n2 & -> & -> & (R2 & P2)). unfold round.
    rewrite flag_reads_app, polls_app, files_begun_app, R2, P2. simpl. auto.
  - apply (runs_log (fun st => os_listdir srcdir (world st)) (EListdir srcdir)).
  - intros entries.
    eapply runs_weaken; [|apply (runs_bind batch (fun new => new = [ESleep]))].
    + intros new (n1 & n2 & -> & (R1 & P1) & ->). unfold batch.
      rewrite flag_reads_app, polls_app, files_begun_app, R1, P1.
      change (files_begun [ESleep]) with 0. change (flag_reads [ESleep]) with 0.
      change (polls [ESleep]) with 0. split; lia.
    + apply runs_for_files.
    + intros _. apply runs_sleep.
Qed.

(** The loop ends only by the flag: never by an exception, and with the
    flag read once for the final test, once for each round and once for
    each file. *)
Lemma main_loop_ends :
  forall fuel st r st',
    dstbasedir st <> None ->
    main_loop fuel v srcdir base st = (Some r, st') ->
    r = Ok tt /\ quit st' = true /\
    exists new, continues st st' new /\
                flag_reads new = polls new + files_begun new + 1.
Proof.
  induction fuel as [|fuel IH]; intros st r st' Hd H; cbn [main_loop] in H;
    [discriminate|].
  unfold read_quit in H.
  destruct (quit st) eqn:Hq.
  - injection H as <- <-. repeat split; [exact Hq|].
    exists [EReadQuit]. split; [apply continues_log | reflexivity].
  - assert (Hd1 : dstbasedir (log EReadQuit st) <> None) by exact Hd.
    destruct (runs_poll _ Hd1) as ([] & st2 & n2 & E & Hk2 & (R2 & P2)).
    rewrite E in H.
    assert (Hd2 : dstbasedir st2 <> None) by (destruct Hk2 as (_ & -> & _); exact Hd).
    destruct (IH _ _ _ Hd2 H) as (-> & Hq' & n3 & Hk3 & R3).
    repeat split; [exact Hq'|].
    exists ([EReadQuit] ++ n2 ++ n3)%list. split.
    + apply (continues_trans _ (log EReadQuit st)); [apply continues_log|].
      now apply (continues_trans _ st2).
    + rewrite !flag_reads_app, !polls_app, !files_begun_app, R2, P2, R3.
      change (files_begun [EReadQuit]) with 0. simpl. lia.
Qed.


Section NoSignal.

Hypothesis no_signal : forall w : W, os_signalled w = false.

(** Without a signal, every file of the batch is begun. *)
Lemma for_files_all :
  forall fnlist st,
    dstbasedir st <> None -> quit st = false ->
    exists st' new,
      for_files v srcdir base fnlist st = (Ok tt, st') /\
      continues st st' new /\
      filter is_gzip_call (calls new) =
        map (fun fn => gzip_cmd ++ [join srcdir [fn]])%list fnlist.
Proof.
  induction fnlist as [|fn rest IH]; intros st Hd Hq; cbn [for_files].
  - exists st, []. split; [reflexivity|]. split; [|reflexivity].
    repeat split; auto. now rewrite List.app_nil_r.
  - destruct (runs_process_one_file v srcdir base fn st Hd)
      as ([] & st1 & n1 & E1 & Hk1 & (R1 & P1 & G1)).
    unfold bind at 1. rewrite E1. unfold bind at 1. unfold read_quit.
    assert (Hq1 : quit st1 = false).
    { destruct Hk1 as (_ & _ & _ & Hs). now rewrite (Hs no_signal). }
    assert (Hd1 : dstbasedir (log EReadQuit st1) <> None).
    { destruct Hk1 as (_ & Hdd & _). simpl. now rewrite Hdd. }
    rewrite Hq1.
    destruct (IH (log EReadQuit st1) Hd1 Hq1) as (st' & n2 & E2 & Hk2 & G2).
    exists st', (n1 ++ [EReadQuit] ++ n2)%list. split; [exact E2|]. split.
    + apply (continues_trans _ st1); [exact Hk1|].
      apply (continues_trans _ (log EReadQuit st1)); [apply continues_log | exact Hk2].
    + rewrite !calls_app, !filter_app, G1, G2. reflexivity.
Qed.


End NoSignal.

(** The files of a batch that went by without a signal are behind the loop. *)
Lemma for_files_app (done rest : list string) :
  forall st st1,
    for_files v srcdir base done st = (Ok tt, st1) ->
    quit st1 = false ->
    for_files v srcdir base (done ++ rest) st = for_files v srcdir base rest st1.
Proof.
  induction done as [|fn done IH]; intros st st1 H Hq; cbn [for_files List.app] in *.
  - now injection H as <-.
  - unfold bind at 1 in H. unfold bind at 1.
    destruct (process_one_file v srcdir base fn st) as [[[]|e] sa]; [|discriminate].
    unfold bind at 1 in H. unfold bind at 1. unfold read_quit in *.
    destruct (quit sa) eqn:Hqa.
    + injection H as <-. simpl in Hq. congruence.
    + now apply IH.
Qed.

End Loops.

(** ** Where the utilities can be started *)

Section LaunchFacts.

Context {W : Type} {os : OS W} {launcher : Launcher W}.

Lemma bind_ext {A B : Type} (c c' : M W A) (f f' : A -> M W B) (st : state W) :
  c st = c' st -> (forall a st1, f a st1 = f' a st1) ->
  bind c f st = bind c' f' st.
Proof.
  intros Hc Hf. unfold bind. rewrite Hc. destruct (c' st) as [[a|e] st1]; auto.
Qed.

Lemma launch_call_started (argv : list string) (st : state W) :
  os_starts argv (world st) = true -> Launch.call argv st = call argv st.
Proof. intros H. unfold Launch.call, call. now rewrite H. Qed.

Lemma launch_call_failed (argv : list string) (st : state W) :
  os_starts argv (world st) = false -> Launch.call argv st = (Raise OSError, st).
Proof. intros H. unfold Launch.call. now rewrite H. Qed.

(** A [gzip] that cannot be started: the exception leaves the processing of
    the file and the batch, after the write of verbose mode if there was
    one. *)
Lemma gzip_not_started (v : bool) (srcdir base0 fn : string) (rest : list string)
  (st : state W) :
  os_starts (gzip_cmd ++ [join srcdir [fn]]) (world st) = false ->
  let pre := if v then log (EWrite (join srcdir [fn] ++ " -> ")) st else st in
  Launch.process_one_file v srcdir base0 fn st = (Raise OSError, pre) /\
  Launch.for_files v srcdir base0 (fn :: rest) st = (Raise OSError, pre).
Proof.
  intros H pre.
  assert (E : Launch.process_one_file v srcdir base0 fn st = (Raise OSError, pre)).
  { unfold Launch.process_one_file, Launch.gzip.
    assert (E1 : (when v (write (join srcdir [fn] ++ " -> "))) st = (Ok tt, pre))
      by (unfold pre; now destruct v).
    unfold bind at 1. rewrite E1. unfold bind at 1. unfold bind at 1.
    rewrite launch_call_failed; [reflexivity|].
    unfold pre. now destruct v. }
  split; [exact E|]. cbn [Launch.for_files]. unfold bind at 1. now rewrite E.
Qed.

Section Installed.

Hypothesis utilities : installed.

Lemma launch_gzip (fname : string) (st : state W) :
  Launch.gzip fname st = gzip fname st.
Proof.
  apply bind_ext; [|reflexivity]. apply launch_call_started.
  apply (utilities "/bin/gzip" ["-1"; fname]). now left.
Qed.

Lemma launch_mkdir (dname : string) (st : state W) :
  Launch.mkdir dname st = mkdir dname st.
Proof.
  apply bind_ext; [|reflexivity]. apply launch_call_started.
  apply (utilities "/bin/mkdir" ["-p"; dname]). right. now left.
Qed.

Lemma launch_mv (src dst : string) (st : state W) :
  Launch.mv src dst st = mv src dst st.
Proof.
  apply bind_ext; [|reflexivity]. apply launch_call_started.
  apply (utilities "/bin/mv" [src; dst]). right. right. now left.
Qed.

Lemma launch_move_file (fname srcdir x : string) (v : bool) (st : state W) :
  Launch.move_file fname srcdir x v st = move_file fname srcdir x v st.
Proof.
  unfold Launch.move_file, move_file.
  destruct (re_fname_groups fname) as [gs|]; [|reflexivity].
  apply bind_ext; [reflexivity | intros base st1].
  apply bind_ext; [reflexivity | intros segs st2].
  apply bind_ext; [reflexivity | intros present st3].
  assert (Hfin : forall st4,
            bind (when v (write (join (join base segs) [fname])))
                 (fun _ => Launch.mv (join srcdir [fname]) (join base segs)) st4 =
            bind (when v (write (join (join base segs) [fname])))
                 (fun _ => mv (join srcdir [fname]) (join base segs)) st4)
    by (intros st4; apply bind_ext; [reflexivity | intros; apply launch_mv]).
  destruct present; cbn [negb]; [apply Hfin|].
  apply bind_ext; [apply launch_mkdir | intros made st4].
  destruct made; cbn [negb]; [apply Hfin | reflexivity].
Qed.

Lemma launch_process_one_file (v : bool) (srcdir base fn : string) (st : state W) :
  Launch.process_one_file v srcdir base fn st = process_one_file v srcdir base fn st.
Proof.
  unfold Launch.process_one_file, process_one_file.
  apply bind_ext; [reflexivity | intros _ st1].
  apply bind_ext; [apply launch_gzip | intros zipped st2].
  apply bind_ext; [|reflexivity].
  destruct zipped; [|reflexivity].
  apply bind_ext; [apply launch_move_file | reflexivity].
Qed.

Lemma launch_for_files (v : bool) (srcdir base : string) (fnlist : list string) :
  forall st : state W,
    Launch.for_files v srcdir base fnlist st = for_files v srcdir base fnlist st.
Proof.
  induction fnlist as [|fn rest IH]; intros st; cbn [Launch.for_files for_files];
    [reflexivity|].
  apply bind_ext; [apply launch_process_one_file | intros _ st1].
  apply bind_ext; [reflexivity | intros q st2].
  destruct q; [reflexivity | apply IH].
Qed.

Lemma launch_poll (v : bool) (srcdir base : string) (st : state W) :
  Launch.poll v srcdir base st = poll v srcdir base st.
Proof.
  unfold Launch.poll, poll.
  apply bind_ext; [reflexivity | intros entries st1].
  apply bind_ext; [apply launch_for_files | reflexivity].
Qed.

Lemma launch_main_loop (v : bool) (srcdir base : string) :
  forall fuel (st : state W),
    Launch.main_loop fuel v srcdir base st = main_loop fuel v srcdir base st.
Proof.
  induction fuel as [|fuel IH]; intros st; cbn [Launch.main_loop main_loop];
    [reflexivity|].
  destruct (read_quit st) as [[[]|e] st1]; try reflexivity.
  rewrite launch_poll.
  destruct (poll v srcdir base st1) as [[[]|e] st2]; [apply IH | reflexivity].
Qed.

End Installed.

End LaunchFacts.

(** * The claims *)

Section Claims.

Context {W : Type} {os : OS W}.

(** Run the primitive operations of a computation. *)
Ltac run :=
  unfold bind, when, isdir, mkdir, mv, gzip, call, write, flush, ret, read_quit, sleep, listdir;
  cbn [negb fst snd].

Arguments move_file : simpl never.
Arguments join : simpl never.
Arguments re_fname_groups : simpl never.

(** A file whose compressed name matches, with every step succeeding. *)
Lemma process_matching (v : bool) (srcdir base0 base fn p y m d : string) (st : state W) :
  re_fname_groups (fn ++ ".gz") = Some [Some p; Some y; Some m; Some d] ->
  dstbasedir st = Some base ->
  let src := join srcdir [fn] in
  let dstdir := join base [p; y; m; d] in
  let zip := (gzip_cmd ++ [src])%list in
  let make := (mkdir_cmd ++ [dstdir])%list in
  let move := (mv_cmd ++ [join srcdir [(fn ++ ".gz")%string]; dstdir])%list in
  let w1 := snd (os_call zip (world st)) in
  fst (os_call zip (world st)) = 0%Z ->
  os_isdir dstdir w1 = true \/ fst (os_call make w1) = 0%Z ->
  exists st',
    process_one_file v srcdir base0 fn st = (Ok tt, st') /\
    calls (trace st') =
      (calls (trace st) ++ zip :: (if os_isdir dstdir w1 then [] else [make]) ++ [move])%list /\
    output (trace st') =
      output (trace st) ++
      (if v then src ++ " -> " ++ join dstdir [fn ++ ".gz"] ++ nl else "").
Proof.
  intros Hm Hb src dstdir zip make move w1 Hzip Hdir.
  unfold process_one_file. fold src. unfold gzip. fold zip.
  set (pre := if v then log (EWrite (src ++ " -> ")) st else st).
  assert (Hpre : world pre = world st /\ dstbasedir pre = Some base /\
                 calls (trace pre) = calls (trace st) /\
                 output (trace pre) = output (trace st) ++ (if v then src ++ " -> " else ""))
    by (unfold pre; destruct v; simpl; rewrite ?calls_app, ?output_app; simpl;
        rewrite ?List.app_nil_r, ?append_nil_r; auto).
  destruct Hpre as (Hw & Hb' & Hc & Ho).
  assert (E1 : (when v (write (src ++ " -> "))) st = (Ok tt, pre))
    by (unfold pre; now destruct v).
  unfold bind at 1. rewrite E1.
  unfold bind at 1. unfold bind at 1. unfold call. rewrite Hw.
  subst w1. destruct (os_call zip (world st)) as [rc w1]. simpl in Hzip, Hdir. subst rc.
  cbn [ret Z.eqb].
  set (mid := advance w1 (log (ECall zip) pre)).
  assert (Hmid : dstbasedir mid = Some base) by exact Hb'.
  unfold bind at 1. unfold bind at 1.
  rewrite (move_file_matched _ _ _ _ _ _ _ _ _ _ Hm Hmid).
  fold dstdir. unfold mv, mkdir. fold move. fold make.
  set (shown := join dstdir [fn ++ ".gz"]).
  assert (Hwm : world mid = w1) by reflexivity.
  assert (Hcm : calls (trace mid) = (calls (trace st) ++ [zip])%list)
    by (unfold mid; simpl; rewrite calls_app, Hc; reflexivity).
  assert (Hom : output (trace mid) = output (trace st) ++ (if v then src ++ " -> " else ""))
    by (unfold mid; simpl; rewrite output_app, Ho; simpl; now rewrite append_nil_r).
  clearbody mid move make zip shown dstdir src.
  destruct mid as [wm dm qm tm]. simpl in Hwm, Hcm, Hom. subst wm.
  run. simpl.
  destruct (os_isdir dstdir w1) eqn:Hd; simpl.
  - destruct v; simpl; destruct (os_call move w1) as [rc w2]; simpl;
      eexists; (split; [reflexivity|]); simpl;
      rewrite ?calls_app, ?output_app, Hcm, Hom; simpl;
      rewrite ?List.app_nil_r, ?append_nil_r, <- ?List.app_assoc, ?append_assoc; auto.
  - destruct Hdir as [Hdir | Hdir]; [discriminate|].
    destruct (os_call make w1) as [rc w2]; simpl in Hdir; subst rc; simpl.
    destruct v; simpl; destruct (os_call move w2) as [rc w3]; simpl;
      eexists; (split; [reflexivity|]); simpl;
      rewrite ?calls_app, ?output_app, Hcm, Hom; simpl;
      rewrite ?List.app_nil_r, ?append_nil_r, <- ?List.app_assoc, ?append_assoc; auto.
Qed.

(** The calls made for a file, by what [gzip], the pattern, [os.path.isdir]
    and [mkdir] answer; what [mv] answers changes nothing. *)
Lemma process_one_file_calls (v : bool) (srcdir base0 base fn : string) (st : state W) :
  dstbasedir st = Some base ->
  let src := join srcdir [fn] in
  let gz := fn ++ ".gz" in
  let zip := (gzip_cmd ++ [src])%list in
  let rc := fst (os_call zip (world st)) in
  let w1 := snd (os_call zip (world st)) in
  let st1 := snd (process_one_file v srcdir base0 fn st) in
  (rc <> 0%Z \/ re_fname_groups gz = None ->
   calls (trace st1) = (calls (trace st) ++ [zip])%list) /\
  (forall p y m d,
     rc = 0%Z ->
     re_fname_groups gz = Some [Some p; Some y; Some m; Some d] ->
     let dstdir := join base [p; y; m; d] in
     let make := (mkdir_cmd ++ [dstdir])%list in
     let move := (mv_cmd ++ [join srcdir [gz]; dstdir])%list in
     calls (trace st1) =
       (calls (trace st) ++ zip ::
          (if os_isdir dstdir w1 then [move]
           else make :: (if (fst (os_call make w1) =? 0)%Z then [move] else [])))%list).
Proof.
  intros Hb src gz zip rc w1 st1. subst st1.
  set (pre := if v then log (EWrite (src ++ " -> ")) st else st).
  set (mid := advance w1 (log (ECall zip) pre)).
  assert (EP : process_one_file v srcdir base0 fn st =
               bind (if (rc =? 0)%Z
                     then bind (move_file gz srcdir base0 v) (fun _ => ret tt)
                     else ret tt)
                    (fun _ => when v (bind (write nl) (fun _ => flush))) mid).
  { unfold process_one_file. fold src gz. unfold gzip. fold zip.
    assert (E1 : (when v (write (src ++ " -> "))) st = (Ok tt, pre))
      by (unfold pre; now destruct v).
    unfold bind at 1. rewrite E1.
    unfold bind at 1. unfold bind at 1. unfold call.
    assert (Hw : world pre = world st) by (unfold pre; now destruct v).
    rewrite Hw. unfold mid, rc, w1.
    now destruct (os_call zip (world st)) as [rc' w']. }
  rewrite EP. clear EP.
  assert (Hmid : dstbasedir mid = Some base) by (unfold mid, pre; now destruct v).
  assert (Hwm : world mid = w1) by reflexivity.
  assert (Hcm : calls (trace mid) = (calls (trace st) ++ [zip])%list)
    by (unfold mid, pre; destruct v; simpl; rewrite !calls_app; simpl;
        now rewrite ?List.app_nil_r).
  clearbody mid rc w1. clear pre.
  assert (Hpost : forall s : state W,
            calls (trace (snd ((when v (bind (write nl) (fun _ => flush))) s)))
            = calls (trace s))
    by (intros s; destruct v; simpl; rewrite ?calls_app; simpl;
        now rewrite ?List.app_nil_r).
  assert (Hskip : calls (trace (snd (bind (ret tt)
                     (fun _ => when v (bind (write nl) (fun _ => flush))) mid)))
                  = (calls (trace st) ++ [zip])%list)
    by (unfold bind at 1; unfold ret; now rewrite Hpost).
  split.
  - intros [Hrc | Hno].
    + destruct (rc =? 0)%Z eqn:Erc; [apply Z.eqb_eq in Erc; contradiction|].
      exact Hskip.
    + destruct (rc =? 0)%Z; [|exact Hskip].
      unfold bind at 1. unfold bind at 1.
      rewrite (move_file_unmatched _ _ _ _ _ Hno). cbn [ret].
      now rewrite Hpost.
  - intros p y m d -> Hm. cbn [Z.eqb].
    set (dstdir := join base [p; y; m; d]).
    set (move := (mv_cmd ++ [join srcdir [gz]; dstdir])%list).
    set (make := (mkdir_cmd ++ [dstdir])%list).
    unfold bind at 1. unfold bind at 1.
    rewrite (move_file_matched _ _ _ _ _ _ _ _ _ _ Hm Hmid).
    fold dstdir. unfold mv, mkdir. fold move. fold make.
    set (shown := join dstdir [gz]).
    clearbody move make zip shown dstdir src.
    destruct mid as [wm dm qm tm]. cbn [world calls trace] in Hwm, Hcm. subst wm.
    run. simpl.
    destruct (os_isdir dstdir w1); simpl.
    + destruct v; simpl; destruct (os_call move w1) as [rc2 w2]; simpl;
        rewrite ?calls_app, Hcm; simpl;
        rewrite ?List.app_nil_r, <- ?List.app_assoc; reflexivity.
    + destruct (os_call make w1) as [rc1 w2]; simpl.
      destruct (rc1 =? 0)%Z; simpl.
      * destruct v; simpl; destruct (os_call move w2) as [rc2 w3]; simpl;
          rewrite ?calls_app, Hcm; simpl;
          rewrite ?List.app_nil_r, <- ?List.app_assoc; reflexivity.
      * destruct v; simpl; rewrite ?calls_app, Hcm; simpl;
          rewrite ?List.app_nil_r, <- ?List.app_assoc; reflexivity.
Qed.

(** A name of the shape has a slash only where its prefix has one. *)
Lemma shape_lacks_slash (p y m d n tail : string) :
  lacks "/" p = true ->
  digits 4 y = true -> digits 2 m = true -> digits 2 d = true -> digits 9 n = true ->
  lacks "/" tail = true ->
  lacks "/" (p ++ "_" ++ y ++ m ++ d ++ "-" ++ n ++ tail) = true.
Proof.
  intros Hp Hy Hm Hd Hn Ht.
  rewrite lacks_app, Hp. cbn [append lacks Ascii.eqb Bool.eqb negb andb].
  rewrite !lacks_app, (digits_lacks "/" 4 eq_refl y Hy),
    (digits_lacks "/" 2 eq_refl m Hm), (digits_lacks "/" 2 eq_refl d Hd).
  cbn [append lacks Ascii.eqb Bool.eqb negb andb].
  now rewrite lacks_app, (digits_lacks "/" 9 eq_refl n Hn), Ht.
Qed.

(** C1, as amended.  A directory entry (a name without a slash) of the shape
    [<prefix>_<YYYY><MM><DD>-<9 digits>.fits] whose prefix has no newline in
    it is compressed and then moved, under the name with [.gz] appended,
    into [os.path.join(dstbasedir, prefix, year, month, day)], if [gzip]
    succeeds and the directory is there or [mkdir] succeeds: the pattern
    matches the name, these calls are made, in this order, and no other;
    verbose mode prints source and destination path; and, the root
    [dstbasedir] being a path and not the empty string, the directory and
    the path of the file in it are the places
    [<root>/<prefix>/<YYYY>/<MM>/<DD>] and
    [<root>/<prefix>/<YYYY>/<MM>/<DD>/<name>.gz] of the specification.  The
    loop passes [base0] for the parameter that [move_file] does not read. *)
Theorem archived_path (v : bool) (srcdir base0 base p y m d n : string) (st : state W) :
  let fn := p ++ "_" ++ y ++ m ++ d ++ "-" ++ n ++ ".fits" in
  digits 4 y = true -> digits 2 m = true -> digits 2 d = true ->
  digits 9 n = true ->
  lacks newline p = true ->
  lacks "/" p = true ->
  dstbasedir st = Some base ->
  base <> "" ->
  let src := join srcdir [fn] in
  let gz := fn ++ ".gz" in
  let dstdir := join base [p; y; m; d] in
  let zip := (gzip_cmd ++ [src])%list in
  let make := (mkdir_cmd ++ [dstdir])%list in
  let move := (mv_cmd ++ [join srcdir [gz]; dstdir])%list in
  let w1 := snd (os_call zip (world st)) in
  fst (os_call zip (world st)) = 0%Z ->
  os_isdir dstdir w1 = true \/ fst (os_call make w1) = 0%Z ->
  re_fname_groups fn = Some [Some p; Some y; Some m; Some d] /\
  endswith fn ".fits" = true /\
  exists st',
    process_one_file v srcdir base0 fn st = (Ok tt, st') /\
    calls (trace st') =
      (calls (trace st) ++ zip :: (if os_isdir dstdir w1 then [] else [make]) ++ [move])%list /\
    output (trace st') =
      output (trace st) ++ (if v then src ++ " -> " ++ join dstdir [gz] ++ nl else "") /\
    same_place dstdir (base ++ "/" ++ p ++ "/" ++ y ++ "/" ++ m ++ "/" ++ d) /\
    same_place (join dstdir [gz])
               (base ++ "/" ++ p ++ "/" ++ y ++ "/" ++ m ++ "/" ++ d ++ "/" ++ gz).
Proof.
  intros fn Hy Hmo Hd Hn Hnl Hp Hb Hne src gz dstdir zip make move w1 Hzip Hdir.
  assert (Hm : re_fname_groups fn = Some [Some p; Some y; Some m; Some d]).
  { change fn with (fits_name p y m d n "" "").
    apply re_fname_groups_complete; auto. }
  assert (He : endswith fn ".fits" = true).
  { replace fn with ((p ++ "_" ++ y ++ m ++ d ++ "-" ++ n) ++ ".fits")
      by (unfold fn; now rewrite !append_assoc).
    apply endswith_app. }
  split; [exact Hm|]. split; [exact He|].
  pose proof (gz_keeps_groups _ _ Hm He) as Hgz.
  destruct (process_matching v srcdir base0 base fn p y m d st Hgz Hb Hzip Hdir)
    as (st' & Hrun & Hcalls & Hout).
  assert (Hg : lacks "/" gz = true).
  { unfold gz, fn. rewrite lacks_app.
    rewrite (shape_lacks_slash p y m d n ".fits"); auto. }
  destruct (archive_place base p y m d gz Hne Hp Hy Hmo Hd Hg) as [Hdirp Hfilep].
  exists st'. auto.
Qed.

(** C2.  [move_file] does not read its third parameter: two calls that differ
    only in it are the same computation.  The directory it tests and moves
    into is joined from the global [dstbasedir]; with that global unbound a
    name that matches raises [NameError], and a name that does not match
    returns [False] before the global is looked up. *)
Theorem destbasedir_parameter_unused (fname srcdir d1 d2 : string) (v : bool)
  (st : state W) :
  move_file fname srcdir d1 v st = move_file fname srcdir d2 v st /\
  (forall base p y m d,
     re_fname_groups fname = Some [Some p; Some y; Some m; Some d] ->
     dstbasedir st = Some base ->
     let dstdir := join base [p; y; m; d] in
     exists r st' rest,
       move_file fname srcdir d1 v st = (Ok r, st') /\
       trace st' = (trace st ++ EIsdir dstdir :: rest)%list /\
       (r = true ->
        exists before,
          calls (trace st') = (before ++ [mv_cmd ++ [join srcdir [fname]; dstdir]])%list)) /\
  (re_fname_groups fname <> None ->
   dstbasedir st = None ->
   move_file fname srcdir d1 v st = (Raise (NameError "dstbasedir"), st)) /\
  (re_fname_groups fname = None ->
   move_file fname srcdir d1 v st = (Ok false, st)).
Proof.
  split; [reflexivity|]. split; [|split].
  - intros base p y m d Hm Hb dstdir.
    rewrite (move_file_matched _ _ _ _ _ _ _ _ _ _ Hm Hb). fold dstdir.
    unfold mv, mkdir.
    set (move := (mv_cmd ++ [join srcdir [fname]; dstdir])%list).
    set (make := (mkdir_cmd ++ [dstdir])%list).
    set (shown := join dstdir [fname]).
    clearbody move make shown dstdir.
    run. simpl.
    destruct (os_isdir dstdir (world st)); simpl.
    + destruct v; simpl; destruct (os_call move (world st)) as [rc w]; simpl;
        do 3 eexists; (split; [reflexivity|]); simpl;
        (split; [rewrite <- !List.app_assoc; reflexivity|]);
        intros _; rewrite !calls_app; simpl; rewrite ?List.app_nil_r; eauto.
    + destruct (os_call make (world st)) as [rc w]; simpl.
      destruct (rc =? 0)%Z; simpl.
      * destruct v; simpl; destruct (os_call move w) as [rc' w']; simpl;
          do 3 eexists; (split; [reflexivity|]); simpl;
          (split; [rewrite <- !List.app_assoc; reflexivity|]);
          intros _; rewrite !calls_app; simpl; rewrite ?List.app_nil_r; eauto.
      * do 3 eexists. split; [reflexivity|]. simpl.
        split; [rewrite <- !List.app_assoc; reflexivity | discriminate].
  - intros Hm Hb. unfold move_file.
    destruct (re_fname_groups fname); [|contradiction].
    unfold bind at 1. unfold read_dstbasedir. now rewrite Hb.
  - apply move_file_unmatched.
Qed.

(** C3.  A file whose name with [.gz] appended the pattern does not match,
    as it does not match any name that is not of the specification's shape:
    [move_file] returns [False] for it with no call and no other effect, so
    processing the file calls [gzip] on it and nothing else; no [mkdir], no
    [mv]. *)
Theorem unmatched_file_stranded (v : bool) (srcdir base0 fn : string) (st : state W) :
  (~ spec_filename_shape (fn ++ ".gz") -> re_fname_groups (fn ++ ".gz") = None) /\
  (re_fname_groups (fn ++ ".gz") = None ->
   (forall x st1, move_file (fn ++ ".gz") srcdir x v st1 = (Ok false, st1)) /\
   exists st',
     process_one_file v srcdir base0 fn st = (Ok tt, st') /\
     calls (trace st') = (calls (trace st) ++ [gzip_cmd ++ [join srcdir [fn]]])%list).
Proof.
  split.
  - intros Hshape.
    destruct (re_fname_groups (fn ++ ".gz")) eqn:E; [|reflexivity].
    exfalso. apply Hshape, gz_match_shape; [apply endswith_app | congruence].
  - intros Hm.
    split; [intros x st1; now apply move_file_unmatched|].
    unfold process_one_file, gzip.
    set (zip := (gzip_cmd ++ [join srcdir [fn]])%list). clearbody zip.
    run. destruct v; simpl; destruct (os_call zip (world st)) as [rc w]; simpl;
      destruct (rc =? 0)%Z; simpl; rewrite ?(move_file_unmatched _ _ _ _ _ Hm);
      eexists; (split; [reflexivity|]); simpl;
      rewrite ?calls_app; simpl; now rewrite ?List.app_nil_r.
Qed.

(** C4.  The candidates of a poll are exactly the entries of the listing
    that end with [.fits], in listing order; a name that ends with
    [.fits.gz] is never one; and a poll processes the candidates of the
    listing it has just read. *)
Theorem candidates_exact (entries : list string) :
  (forall fn, In fn (candidates entries) <->
              In fn entries /\ exists stem, fn = stem ++ ".fits") /\
  (forall stem, ~ In (stem ++ ".fits.gz") (candidates entries)) /\
  (forall more, candidates (entries ++ more) = (candidates entries ++ candidates more)%list) /\
  (forall v srcdir base (st : state W),
     poll v srcdir base st =
       bind (for_files v srcdir base (candidates (os_listdir srcdir (world st))))
            (fun _ => sleep) (log (EListdir srcdir) st)).
Proof.
  split; [|split; [|split]].
  - intros fn. unfold candidates. rewrite filter_In. split.
    + intros [Hin He]. split; [exact Hin | now apply endswith_inv].
    + intros (Hin & stem & ->). split; [exact Hin | apply endswith_app].
  - intros stem H. apply filter_In in H as [_ H]. apply endswith_inv in H as [q H].
    assert (E1 : stem ++ ".fits.gz" = (stem ++ ".fits.g") ++ "z") by now rewrite append_assoc.
    assert (E2 : q ++ ".fits" = (q ++ ".fit") ++ "s") by now rewrite append_assoc.
    rewrite E1, E2 in H. apply append_last_inj in H. discriminate.
  - intros more. apply filter_app.
  - reflexivity.
Qed.

(** C5.  With the flag set when the loop tests it, the loop ends at once:
    no listing, no file.  With the flag set while a file is processed, that
    file is processed to its end, the rest of the batch is dropped, and
    after the sleep the next test ends the loop; the script then ends with
    status 0.  A loop that has ended read the flag once for each round begun,
    once for each file begun, and once more for the test that ended it. *)
Theorem termination_flag (v : bool) (srcdir base : string) :
  (forall fuel (st : state W),
     quit st = true ->
     main_loop (S fuel) v srcdir base st = (Some (Ok tt), log EReadQuit st) /\
     finish (main_loop (S fuel) v srcdir base st) = (Finished, log EReadQuit st)) /\
  (forall fuel (st : state W) done fn rest st1 st2,
     quit st = false ->
     candidates (os_listdir srcdir (world st)) = (done ++ fn :: rest)%list ->
     for_files v srcdir base done (log (EListdir srcdir) (log EReadQuit st)) = (Ok tt, st1) ->
     quit st1 = false ->
     process_one_file v srcdir base fn st1 = (Ok tt, st2) ->
     quit st2 = true ->
     let st3 := log EReadQuit (snd (sleep (log EReadQuit st2))) in
     for_files v srcdir base (fn :: rest) st1 = (Ok tt, log EReadQuit st2) /\
     main_loop (S (S fuel)) v srcdir base st = (Some (Ok tt), st3) /\
     finish (main_loop (S (S fuel)) v srcdir base st) = (Finished, st3)) /\
  (forall fuel (st st' : state W),
     dstbasedir st <> None ->
     main_loop fuel v srcdir base st = (Some (Ok tt), st') ->
     exists new,
       trace st' = (trace st ++ new)%list /\
       flag_reads new = polls new + files_begun new + 1) /\
  exit_status Finished = Some 0%Z.
Proof.
  split; [|split; [|split]].
  - intros fuel st Hq. cbn [main_loop]. unfold read_quit. rewrite Hq. now split.
  - intros fuel st done fn rest st1 st2 Hq Hc Hdone Hq1 Hfn Hq2 st3.
    assert (Hfor : for_files v srcdir base (fn :: rest) st1 = (Ok tt, log EReadQuit st2)).
    { cbn [for_files]. unfold bind at 1. rewrite Hfn.
      unfold bind at 1. unfold read_quit. now rewrite Hq2. }
    assert (Hloop : main_loop (S (S fuel)) v srcdir base st = (Some (Ok tt), st3)).
    { cbn [main_loop]. unfold read_quit at 1. rewrite Hq.
      unfold poll. unfold bind at 1. unfold listdir. cbn [world log]. rewrite Hc.
      unfold bind at 1.
      rewrite (for_files_app v srcdir base done (fn :: rest) _ _ Hdone Hq1), Hfor.
      unfold sleep, read_quit. cbn [quit advance log]. rewrite Hq2. reflexivity. }
    split; [exact Hfor|]. split; [exact Hloop|]. now rewrite Hloop.
  - intros fuel st st' Hd H.
    destruct (main_loop_ends v srcdir base fuel st _ st' Hd H)
      as (_ & _ & new & (Ht & _) & Hn).
    exists new. auto.
  - reflexivity.
Qed.

(** C6, as amended.  In the loop, where [dstbasedir] is bound, and with a
    [subprocess.call] that raises [OSError] for a command it cannot start.
    Where the three utilities can be started, a step that fails stays with
    its file.  Processing a file always returns: after a [gzip] that
    returns a code other than 0, or for a compressed name that does not
    match, with no further call; for a name that matches, after [mkdir -p]
    alone if the directory was absent and [mkdir] returned a code other
    than 0, and else after [mv], whatever code [mv] returns.  The loop then
    goes on with the next file unless the flag is set; a batch always
    returns; the loop never ends by an exception, only by the flag; and
    with no signal every file of a batch gets its [gzip].  A [gzip] that
    cannot be started is another matter: [OSError] leaves the processing of
    the file and the batch with nothing called, and, raised for the first
    file of a round, it ends the loop and the script, with status 1. *)
Theorem failures_stay_with_the_file {launcher : Launcher W}
  (v : bool) (srcdir base0 base : string) (st : state W) :
  dstbasedir st = Some base ->
  (installed ->
   (forall fn rest,
      let src := join srcdir [fn] in
      let gz := fn ++ ".gz" in
      let zip := (gzip_cmd ++ [src])%list in
      let rc := fst (os_call zip (world st)) in
      let w1 := snd (os_call zip (world st)) in
      exists st1,
        Launch.process_one_file v srcdir base0 fn st = (Ok tt, st1) /\
        dstbasedir st1 = Some base /\
        (rc <> 0%Z \/ re_fname_groups gz = None ->
         calls (trace st1) = (calls (trace st) ++ [zip])%list) /\
        (forall p y m d,
           rc = 0%Z ->
           re_fname_groups gz = Some [Some p; Some y; Some m; Some d] ->
           let dstdir := join base [p; y; m; d] in
           let make := (mkdir_cmd ++ [dstdir])%list in
           let move := (mv_cmd ++ [join srcdir [gz]; dstdir])%list in
           calls (trace st1) =
             (calls (trace st) ++ zip ::
                (if os_isdir dstdir w1 then [move]
                 else make ::
                        (if (fst (os_call make w1) =? 0)%Z then [move] else [])))%list) /\
        Launch.for_files v srcdir base0 (fn :: rest) st =
          if quit st1 then (Ok tt, log EReadQuit st1)
          else Launch.for_files v srcdir base0 rest (log EReadQuit st1)) /\
   (forall fnlist,
      exists st', Launch.for_files v srcdir base0 fnlist st = (Ok tt, st')) /\
   (forall fuel r st',
      Launch.main_loop fuel v srcdir base0 st = (Some r, st') ->
      r = Ok tt /\ quit st' = true) /\
   ((forall w : W, os_signalled w = false) ->
    quit st = false ->
    forall fnlist,
      exists st' new,
        Launch.for_files v srcdir base0 fnlist st = (Ok tt, st') /\
        trace st' = (trace st ++ new)%list /\
        filter is_gzip_call (calls new) =
          map (fun fn => gzip_cmd ++ [join srcdir [fn]])%list fnlist)) /\
  (forall fn rest,
     os_starts (gzip_cmd ++ [join srcdir [fn]])%list (world st) = false ->
     exists st1,
       Launch.process_one_file v srcdir base0 fn st = (Raise OSError, st1) /\
       Launch.for_files v srcdir base0 (fn :: rest) st = (Raise OSError, st1) /\
       calls (trace st1) = calls (trace st) /\
       (quit st = false ->
        candidates (os_listdir srcdir (world st)) = fn :: rest ->
        forall fuel,
          exists st2,
            Launch.main_loop (S fuel) v srcdir base0 st = (Some (Raise OSError), st2) /\
            finish (Launch.main_loop (S fuel) v srcdir base0 st)
              = (Uncaught OSError, st2) /\
            exit_status (Uncaught OSError) = Some 1%Z /\
            calls (trace st2) = calls (trace st))).
Proof.
  intros Hb.
  assert (Hd : dstbasedir st <> None) by congruence.
  split.
  - intros Hin. split; [|split; [|split]].
    + intros fn rest src gz zip rc w1.
      destruct (runs_process_one_file v srcdir base0 fn st Hd)
        as ([] & st1 & new & E & (Ht & Hdd & _) & _).
      destruct (process_one_file_calls v srcdir base0 base fn st Hb) as [Hfail Hmove].
      rewrite E in Hfail, Hmove. cbn [snd] in Hfail, Hmove.
      exists st1. rewrite (launch_process_one_file Hin).
      split; [exact E|]. split; [congruence|]. split; [exact Hfail|].
      split; [exact Hmove|].
      cbn [Launch.for_files]. unfold bind at 1.
      rewrite (launch_process_one_file Hin), E.
      unfold bind at 1. unfold read_quit. now destruct (quit st1).
    + intros fnlist. rewrite (launch_for_files Hin).
      destruct (runs_for_files v srcdir base0 fnlist st Hd) as ([] & st' & new & E & _).
      now exists st'.
    + intros fuel r st' H. rewrite (launch_main_loop Hin) in H.
      destruct (main_loop_ends v srcdir base0 fuel st r st' Hd H) as (Hr & Hq & _).
      now split.
    + intros Hns Hq fnlist. rewrite (launch_for_files Hin).
      destruct (for_files_all v srcdir base0 Hns fnlist st Hd Hq)
        as (st' & new & E & (Ht & _) & G).
      exists st', new. auto.
  - intros fn rest Hno.
    destruct (gzip_not_started v srcdir base0 fn rest st Hno) as [E1 E2].
    eexists. split; [exact E1|]. split; [exact E2|]. split.
    + destruct v; cbn [log trace]; rewrite ?calls_app; cbn [calls];
        now rewrite ?List.app_nil_r.
    + intros Hq Hc fuel.
      set (st0 := log (EListdir srcdir) (log EReadQuit st)).
      assert (Hno0 : os_starts (gzip_cmd ++ [join srcdir [fn]])%list (world st0) = false)
        by exact Hno.
      destruct (gzip_not_started v srcdir base0 fn rest st0 Hno0) as [_ E0].
      assert (Eloop : Launch.main_loop (S fuel) v srcdir base0 st =
                      (Some (Raise OSError),
                       if v then log (EWrite (join srcdir [fn] ++ " -> ")) st0 else st0)).
      { cbn [Launch.main_loop]. unfold read_quit. rewrite Hq.
        unfold Launch.poll. unfold bind at 1. unfold listdir.
        cbn [world log]. rewrite Hc. fold st0.
        unfold bind at 1. now rewrite E0. }
      eexists. split; [exact Eloop|]. rewrite Eloop.
      split; [reflexivity|]. split; [reflexivity|].
      unfold st0. destruct v; cbn [log trace]; rewrite ?calls_app; cbn [calls];
        now rewrite ?List.app_nil_r.
Qed.

(** C7.  For a name that matches, with the archive directory
    [os.path.join(dstbasedir, prefix, year, month, day)]: if [os.path.isdir]
    finds the directory, [move_file] calls nothing but [mv], whose outcome is
    its result; only if it does not find it is [mkdir -p] called, first, and
    [mv] after it if [mkdir] succeeded. *)
Theorem existing_directory_no_mkdir (fname srcdir x : string) (v : bool)
  (base p y m d : string) (st : state W) :
  re_fname_groups fname = Some [Some p; Some y; Some m; Some d] ->
  dstbasedir st = Some base ->
  let dstdir := join base [p; y; m; d] in
  let make := (mkdir_cmd ++ [dstdir])%list in
  let move := (mv_cmd ++ [join srcdir [fname]; dstdir])%list in
  (os_isdir dstdir (world st) = true ->
   exists st',
     move_file fname srcdir x v st = (Ok (fst (os_call move (world st)) =? 0)%Z, st') /\
     calls (trace st') = (calls (trace st) ++ [move])%list) /\
  (os_isdir dstdir (world st) = false ->
   exists r st',
     move_file fname srcdir x v st = (Ok r, st') /\
     calls (trace st') =
       (calls (trace st) ++
        make :: (if (fst (os_call make (world st)) =? 0)%Z then [move] else []))%list).
Proof.
  intros Hm Hb dstdir make move.
  rewrite (move_file_matched _ _ _ _ _ _ _ _ _ _ Hm Hb). fold dstdir.
  unfold mv, mkdir. fold move. fold make.
  set (shown := join dstdir [fname]).
  clearbody move make shown dstdir.
  split; intros Hdir; run; rewrite Hdir; simpl.
  - destruct v; simpl; destruct (os_call move (world st)) as [rc w]; simpl;
      eexists; (split; [reflexivity|]); simpl;
      rewrite !calls_app; simpl; now rewrite ?List.app_nil_r.
  - destruct (os_call make (world st)) as [rc w]; simpl.
    destruct (rc =? 0)%Z; simpl.
    + destruct v; simpl; destruct (os_call move w) as [rc' w']; simpl;
        do 2 eexists; (split; [reflexivity|]); simpl;
        rewrite !calls_app; simpl;
        rewrite ?List.app_nil_r, <- ?List.app_assoc; reflexivity.
    + do 2 eexists. split; [reflexivity|]. simpl.
      rewrite !calls_app. simpl. rewrite ?List.app_nil_r. reflexivity.
Qed.

(** C8, as amended.  On a name of ASCII characters the pattern matches, and
    then yields prefix, year, month and day, exactly when the name is a
    prefix without a newline, an underscore, four, two and two digits, a
    dash, nine digits and [.fits], optionally followed by [.gz] and then
    optionally by one final newline; without a match [move_file] returns
    [False] and does nothing; and a name that ends with [.gz], as every
    name the loop hands over does, matches only if it is of the
    specification's shape.  Among the characters of ASCII the digits of
    [\d] are [0-9] for either Python, which is why this is stated for such
    names.  For every name: one of that make, with digits [0-9], is matched
    whatever the characters of its prefix, and a match always yields these
    four groups. *)
Theorem timestamp_parse_exact (s : string) :
  let made p y m d :=
    exists n gz e,
      s = fits_name p y m d n gz e /\
      lacks newline p = true /\
      digits 4 y = true /\ digits 2 m = true /\ digits 2 d = true /\
      digits 9 n = true /\
      (gz = "" \/ gz = ".gz") /\ (e = "" \/ e = nl) in
  (ascii_only s = true ->
   (forall p y m d,
      re_fname_groups s = Some [Some p; Some y; Some m; Some d] <-> made p y m d) /\
   (re_fname_groups s = None ->
    forall srcdir x v (st : state W), move_file s srcdir x v st = (Ok false, st)) /\
   (endswith s ".gz" = true -> re_fname_groups s <> None -> spec_filename_shape s)) /\
  (forall p y m d,
     made p y m d -> re_fname_groups s = Some [Some p; Some y; Some m; Some d]) /\
  (forall gs,
     re_fname_groups s = Some gs ->
     exists p y m d, gs = [Some p; Some y; Some m; Some d]).
Proof.
  intros made.
  assert (Hmade : forall p y m d,
            made p y m d -> re_fname_groups s = Some [Some p; Some y; Some m; Some d]).
  { intros p y m d (n & gz & e & -> & Hp & Hy & Hm & Hd & Hn & Hgz & He).
    now apply re_fname_groups_complete. }
  split; [|split].
  - intros _. split; [|split].
    + intros p y m d. split; [|apply Hmade].
      intros H. destruct (re_fname_groups_sound _ _ H)
        as (p' & y' & m' & d' & n & gz & e & [= <- <- <- <-] & Hs).
      exists n, gz, e. exact Hs.
    + intros H srcdir x v st. now apply move_file_unmatched.
    + apply gz_match_shape.
  - exact Hmade.
  - intros gs H. destruct (re_fname_groups_sound _ _ H)
      as (p & y & m & d & _ & _ & _ & -> & _). eauto.
Qed.


(** C10.  A name that begins with the underscore matches with the empty
    prefix, with and without [.gz]; joining the empty prefix adds no
    directory level, so the archive directory is
    [os.path.join(dstbasedir, year, month, day)], the place
    [<root>/<YYYY>/<MM>/<DD>], and that is where the file is moved. *)
Theorem empty_prefix (y m d n : string) :
  digits 4 y = true -> digits 2 m = true -> digits 2 d = true ->
  digits 9 n = true ->
  let fn := "_" ++ y ++ m ++ d ++ "-" ++ n ++ ".fits" in
  re_fname_groups fn = Some [Some ""; Some y; Some m; Some d] /\
  re_fname_groups (fn ++ ".gz") = Some [Some ""; Some y; Some m; Some d] /\
  (forall base, join base [""; y; m; d] = join base [y; m; d]) /\
  (forall base, base <> "" ->
     same_place (join base [""; y; m; d])
                (base ++ "/" ++ y ++ "/" ++ m ++ "/" ++ d)) /\
  (forall v srcdir base0 base (st : state W),
     dstbasedir st = Some base ->
     let src := join srcdir [fn] in
     let dstdir := join base [y; m; d] in
     let zip := (gzip_cmd ++ [src])%list in
     let make := (mkdir_cmd ++ [dstdir])%list in
     let move := (mv_cmd ++ [join srcdir [(fn ++ ".gz")%string]; dstdir])%list in
     let w1 := snd (os_call zip (world st)) in
     fst (os_call zip (world st)) = 0%Z ->
     os_isdir dstdir w1 = true \/ fst (os_call make w1) = 0%Z ->
     exists st',
       process_one_file v srcdir base0 fn st = (Ok tt, st') /\
       calls (trace st') =
         (calls (trace st) ++ zip :: (if os_isdir dstdir w1 then [] else [make]) ++ [move])%list).
Proof.
  intros Hy Hm Hd Hn fn.
  assert (H1 : re_fname_groups fn = Some [Some ""; Some y; Some m; Some d]).
  { change fn with (fits_name "" y m d n "" ""). apply re_fname_groups_complete; auto. }
  assert (H2 : re_fname_groups (fn ++ ".gz") = Some [Some ""; Some y; Some m; Some d]).
  { change fn with (fits_name "" y m d n "" "").
    replace (fits_name "" y m d n "" "" ++ ".gz") with (fits_name "" y m d n ".gz" "")
      by now rewrite (fits_name_tail _ _ _ _ _ ".gz").
    apply re_fname_groups_complete; auto. }
  split; [exact H1|]. split; [exact H2|]. split; [|split].
  - intros base. apply join_empty_first.
  - intros base Hb. rewrite join_empty_first.
    assert (H0 : same_place base base /\ base <> "" /\ base <> "")
      by (repeat split; auto).
    pose proof (same_place_step _ _ y H0 (digits_relative _ _ Hy)) as S1.
    pose proof (same_place_step _ _ m S1 (digits_relative _ _ Hm)) as S2.
    pose proof (same_place_step _ _ d S2 (digits_relative _ _ Hd)) as S3.
    rewrite !append_assoc in S3. apply S3.
  - intros v srcdir base0 base st Hb src dstdir zip make move w1 Hzip Hdir.
    subst dstdir make move. rewrite <- (join_empty_first base y [m; d]) in *.
    destruct (process_matching v srcdir base0 base fn "" y m d st H2 Hb Hzip Hdir)
      as (st' & Hrun & Hcalls & _).
    exists st'. split; [exact Hrun | exact Hcalls].
Qed.

End Claims.

(** * The claims on the small operating system *)

(** C1, as amended, on the example of the specification. *)
Lemma archived_path_witness :
  re_fname_groups "cam1_20120304-000000001.fits"
    = Some [Some "cam1"; Some "2012"; Some "03"; Some "04"] /\
  endswith "cam1_20120304-000000001.fits" ".fits" = true /\
  exists st',
    process_one_file true "/data/in" "/data/out" "cam1_20120304-000000001.fits"
      (Toy.entered Toy.w0) = (Ok tt, st') /\
    calls (trace st') =
      [ ["/bin/gzip"; "-1"; "/data/in/cam1_20120304-000000001.fits"];
        ["/bin/mkdir"; "-p"; "/data/out/cam1/2012/03/04"];
        ["/bin/mv"; "/data/in/cam1_20120304-000000001.fits.gz";
         "/data/out/cam1/2012/03/04"] ] /\
    output (trace st') =
      "/data/in/cam1_20120304-000000001.fits -> " ++
      "/data/out/cam1/2012/03/04/cam1_20120304-000000001.fits.gz" ++ nl /\
    same_place "/data/out/cam1/2012/03/04" "/data/out/cam1/2012/03/04" /\
    same_place "/data/out/cam1/2012/03/04/cam1_20120304-000000001.fits.gz"
               "/data/out/cam1/2012/03/04/cam1_20120304-000000001.fits.gz".
Proof.
  refine (archived_path true "/data/in" "/data/out" "/data/out"
            "cam1" "2012" "03" "04" "000000001"
            (Toy.entered Toy.w0) _ _ _ _ _ _ _ _ _ _);
    [ reflexivity | reflexivity | reflexivity | reflexivity | reflexivity
    | reflexivity | reflexivity | discriminate | reflexivity | right; reflexivity ].
Defined.

(** C1 as the specification states it fails.  The entry
    [a<newline>b_20120304-000000001.fits] is of the stated shape, with the
    prefix [a<newline>b]; it is a candidate, and it has no slash in it.  It
    is compressed, [gzip] returning 0, and nothing else is called for it: it
    is not moved. *)
Lemma newline_prefix_not_archived :
  ("a" ++ nl ++ "b_20120304-000000001.fits"
     = fits_name ("a" ++ nl ++ "b") "2012" "03" "04" "000000001" "" "" /\
   digits 4 "2012" = true /\ digits 2 "03" = true /\ digits 2 "04" = true /\
   digits 9 "000000001" = true) /\
  spec_filename_shape ("a" ++ nl ++ "b_20120304-000000001.fits") /\
  candidates ["a" ++ nl ++ "b_20120304-000000001.fits"]
    = ["a" ++ nl ++ "b_20120304-000000001.fits"] /\
  lacks "/" ("a" ++ nl ++ "b_20120304-000000001.fits") = true /\
  fst (os_call ["/bin/gzip"; "-1"; "/data/in/a" ++ nl ++ "b_20120304-000000001.fits"]
         Toy.w0) = 0%Z /\
  exists st',
    process_one_file false "/data/in" "/data/out"
      ("a" ++ nl ++ "b_20120304-000000001.fits") (Toy.entered Toy.w0) = (Ok tt, st') /\
    calls (trace st') =
      [["/bin/gzip"; "-1"; "/data/in/a" ++ nl ++ "b_20120304-000000001.fits"]].
Proof.
  split; [repeat split|]. split.
  - exists ("a" ++ nl ++ "b"), "2012", "03", "04", "000000001", "".
    repeat split. now left.
  - split; [reflexivity|]. split; [reflexivity|]. split; [reflexivity|].
    eexists. split; reflexivity.
Qed.

(** C2 on a capture, in the loop and before [dstbasedir] is bound. *)
Lemma destbasedir_parameter_unused_witness :
  (exists r st' rest,
     move_file "cam1_20120304-000000001.fits.gz" "/data/in" "/elsewhere" false
       (Toy.entered Toy.w0) = (Ok r, st') /\
     trace st' = EIsdir "/data/out/cam1/2012/03/04" :: rest /\
     (r = true ->
      exists before,
        calls (trace st') =
          (before ++ [["/bin/mv"; "/data/in/cam1_20120304-000000001.fits.gz";
                       "/data/out/cam1/2012/03/04"]])%list)) /\
  move_file "cam1_20120304-000000001.fits.gz" "/data/in" "/elsewhere" false
    (boot Toy.w0) = (Raise (NameError "dstbasedir"), boot Toy.w0).
Proof.
  split.
  - refine (proj1 (proj2 (destbasedir_parameter_unused
              "cam1_20120304-000000001.fits.gz" "/data/in" "/elsewhere" "/data/out"
              false (Toy.entered Toy.w0)))
            "/data/out" "cam1" "2012" "03" "04" _ _); reflexivity.
  - refine (proj1 (proj2 (proj2 (destbasedir_parameter_unused
              "cam1_20120304-000000001.fits.gz" "/data/in" "/elsewhere" "/data/out"
              false (boot Toy.w0)))) _ _); [discriminate | reflexivity].
Defined.

(** C3 on a file that is no capture. *)
Lemma unmatched_file_stranded_witness :
  exists st',
    process_one_file false "/data/in" "/data/out" "notes.fits" (Toy.entered Toy.w0)
      = (Ok tt, st') /\
    calls (trace st') = [["/bin/gzip"; "-1"; "/data/in/notes.fits"]].
Proof.
  destruct (unmatched_file_stranded false "/data/in" "/data/out" "notes.fits"
              (Toy.entered Toy.w0)) as [Hshape Hrun].
  apply Hrun, Hshape.
  intros H. apply shape_min_length in H. simpl in H. lia.
Defined.

(** C4 on a listing of three entries. *)
Lemma candidates_exact_witness :
  In "a.fits" (candidates ["a.fits"; "b.fits.gz"; "c.txt"]) /\
  ~ In "b.fits.gz" (candidates ["a.fits"; "b.fits.gz"; "c.txt"]).
Proof.
  split.
  - apply (proj1 (candidates_exact (W := Toy.world) ["a.fits"; "b.fits.gz"; "c.txt"])).
    split; [now left | now exists "a"].
  - apply (proj1 (proj2 (candidates_exact (W := Toy.world)
                           ["a.fits"; "b.fits.gz"; "c.txt"])) "b").
Defined.

(** C5 where the signal comes during the first of two files. *)
Lemma termination_flag_witness :
  exists st3,
    finish (main_loop 2 false "/data/in" "/data/out" (Toy.entered Toy.w_signal))
      = (Finished, st3) /\
    calls (trace st3) =
      [ ["/bin/gzip"; "-1"; "/data/in/cam1_20120304-000000001.fits"];
        ["/bin/mkdir"; "-p"; "/data/out/cam1/2012/03/04"];
        ["/bin/mv"; "/data/in/cam1_20120304-000000001.fits.gz";
         "/data/out/cam1/2012/03/04"] ] /\
    flag_reads (trace st3) = 3.
Proof.
  set (st := Toy.entered Toy.w_signal).
  set (st1 := log (EListdir "/data/in") (log EReadQuit st)).
  set (st2 := snd (process_one_file false "/data/in" "/data/out"
                     "cam1_20120304-000000001.fits" st1)).
  exists (log EReadQuit (snd (sleep (log EReadQuit st2)))).
  split; [|split; reflexivity].
  refine (proj2 (proj2 (proj1 (proj2 (termination_flag false "/data/in" "/data/out"))
            0 st [] "cam1_20120304-000000001.fits" ["cam2_20120304-000000002.fits"]
            st1 st2 _ _ _ _ _ _))); reflexivity.
Defined.

(** C6, as amended, with an [mv] and with a [mkdir] that return 1. *)
Lemma failures_stay_with_the_file_witness :
  (exists st1,
     @Launch.process_one_file Toy.world Toy.toy_os (Toy.without []) false
       "/data/in" "/data/out" "cam1_20120304-000000001.fits"
       (Toy.entered (Toy.w_failing ["/bin/mv"])) = (Ok tt, st1) /\
     calls (trace st1) =
       [ ["/bin/gzip"; "-1"; "/data/in/cam1_20120304-000000001.fits"];
         ["/bin/mkdir"; "-p"; "/data/out/cam1/2012/03/04"];
         ["/bin/mv"; "/data/in/cam1_20120304-000000001.fits.gz";
          "/data/out/cam1/2012/03/04"] ] /\
     @Launch.for_files Toy.world Toy.toy_os (Toy.without []) false "/data/in" "/data/out"
       ["cam1_20120304-000000001.fits"; "cam2_20120304-000000002.fits"]
       (Toy.entered (Toy.w_failing ["/bin/mv"])) =
     @Launch.for_files Toy.world Toy.toy_os (Toy.without []) false "/data/in" "/data/out"
       ["cam2_20120304-000000002.fits"] (log EReadQuit st1)) /\
  (exists st1,
     @Launch.process_one_file Toy.world Toy.toy_os (Toy.without []) false
       "/data/in" "/data/out" "cam1_20120304-000000001.fits"
       (Toy.entered (Toy.w_failing ["/bin/mkdir"])) = (Ok tt, st1) /\
     calls (trace st1) =
       [ ["/bin/gzip"; "-1"; "/data/in/cam1_20120304-000000001.fits"];
         ["/bin/mkdir"; "-p"; "/data/out/cam1/2012/03/04"] ] /\
     @Launch.for_files Toy.world Toy.toy_os (Toy.without []) false "/data/in" "/data/out"
       ["cam1_20120304-000000001.fits"; "cam2_20120304-000000002.fits"]
       (Toy.entered (Toy.w_failing ["/bin/mkdir"])) =
     @Launch.for_files Toy.world Toy.toy_os (Toy.without []) false "/data/in" "/data/out"
       ["cam2_20120304-000000002.fits"] (log EReadQuit st1)).
Proof.
  assert (Hin : @installed Toy.world (Toy.without []))
    by (intros prog args w _; reflexivity).
  split.
  - destruct (proj1 (proj1 (@failures_stay_with_the_file Toy.world Toy.toy_os
                              (Toy.without []) false "/data/in" "/data/out" "/data/out"
                              (Toy.entered (Toy.w_failing ["/bin/mv"])) eq_refl) Hin)
                "cam1_20120304-000000001.fits" ["cam2_20120304-000000002.fits"])
      as (st1 & E & _ & _ & Hmove & Hfor).
    exists st1. split; [exact E|].
    split; [exact (Hmove "cam1" "2012" "03" "04" eq_refl eq_refl)|].
    rewrite Hfor. vm_compute in E. injection E as <-. reflexivity.
  - destruct (proj1 (proj1 (@failures_stay_with_the_file Toy.world Toy.toy_os
                              (Toy.without []) false "/data/in" "/data/out" "/data/out"
                              (Toy.entered (Toy.w_failing ["/bin/mkdir"])) eq_refl) Hin)
                "cam1_20120304-000000001.fits" ["cam2_20120304-000000002.fits"])
      as (st1 & E & _ & _ & Hmove & Hfor).
    exists st1. split; [exact E|].
    split; [exact (Hmove "cam1" "2012" "03" "04" eq_refl eq_refl)|].
    rewrite Hfor. vm_compute in E. injection E as <-. reflexivity.
Defined.

(** C6 as the specification states it fails.  Two captures, and no
    [/bin/mv] to be started.  The first capture is compressed and its
    directory made; then [OSError] leaves the processing of the file, the
    second capture is never begun, and the script ends by the exception,
    with status 1. *)
Lemma missing_utility_ends_the_loop :
  (exists st1,
     @Launch.process_one_file Toy.world Toy.toy_os (Toy.without ["/bin/mv"]) false
       "/data/in" "/data/out" "cam1_20120304-000000001.fits"
       (Toy.entered (Toy.w_failing [])) = (Raise OSError, st1)) /\
  exists st,
    @Launch.main Toy.world Toy.toy_os (Toy.without ["/bin/mv"]) 5
      (mkOptions (Some "/data/in") (Some "/data/out") false) [] (Toy.w_failing [])
      = (Uncaught OSError, st) /\
    calls (trace st) =
      [ ["/bin/gzip"; "-1"; "/data/in/cam1_20120304-000000001.fits"];
        ["/bin/mkdir"; "-p"; "/data/out/cam1/2012/03/04"] ] /\
    exit_status (Uncaught OSError) = Some 1%Z.
Proof.
  split; [eexists; reflexivity|].
  eexists. split; [reflexivity|]. split; reflexivity.
Qed.

(** C7 where the archive directory is there already. *)
Lemma existing_directory_no_mkdir_witness :
  exists st',
    move_file "cam1_20120304-000000001.fits.gz" "/data/in" "/data/out" false
      (Toy.entered Toy.w_archived) = (Ok true, st') /\
    calls (trace st') =
      [["/bin/mv"; "/data/in/cam1_20120304-000000001.fits.gz";
        "/data/out/cam1/2012/03/04"]].
Proof.
  refine (proj1 (existing_directory_no_mkdir
                   "cam1_20120304-000000001.fits.gz" "/data/in" "/data/out" false
                   "/data/out" "cam1" "2012" "03" "04" (Toy.entered Toy.w_archived) _ _) _);
    reflexivity.
Defined.

(** C8, as amended, on a compressed capture. *)
Lemma timestamp_parse_exact_witness :
  exists n gz e,
    "cam1_20120304-000000001.fits.gz" = fits_name "cam1" "2012" "03" "04" n gz e /\
    lacks newline "cam1" = true /\
    digits 4 "2012" = true /\ digits 2 "03" = true /\ digits 2 "04" = true /\
    digits 9 n = true /\
    (gz = "" \/ gz = ".gz") /\ (e = "" \/ e = nl).
Proof.
  refine (proj1 (proj1 (proj1 (timestamp_parse_exact (W := Toy.world)
                                 "cam1_20120304-000000001.fits.gz") eq_refl)
                   "cam1" "2012" "03" "04") _).
  reflexivity.
Defined.

(** C8 as the specification states it fails, both ways.  A name with a
    newline after [.fits] is not of the stated shape, yet the pattern
    matches it and [move_file] goes on to move the file; and a name of the
    stated shape whose prefix has a newline in it is not matched. *)
Lemma pattern_is_not_the_shape :
  (~ spec_filename_shape ("x_20120304-000000001.fits" ++ nl) /\
   re_fname_groups ("x_20120304-000000001.fits" ++ nl)
     = Some [Some "x"; Some "2012"; Some "03"; Some "04"] /\
   calls (trace (snd (move_file ("x_20120304-000000001.fits" ++ nl) "/data/in" "/data/out"
                        false (Toy.entered Toy.w0))))
     = [ ["/bin/mkdir"; "-p"; "/data/out/x/2012/03/04"];
         ["/bin/mv"; "/data/in/x_20120304-000000001.fits" ++ nl;
          "/data/out/x/2012/03/04"] ]) /\
  (spec_filename_shape ("a" ++ nl ++ "b_20120304-000000001.fits.gz") /\
   re_fname_groups ("a" ++ nl ++ "b_20120304-000000001.fits.gz") = None).
Proof.
  split; split.
  - intros H. destruct (shape_ends _ H) as [E | E]; discriminate E.
  - split; reflexivity.
  - exists ("a" ++ nl ++ "b"), "2012", "03", "04", "000000001", ".gz".
    repeat split. now right.
  - reflexivity.
Qed.


(** C10 on a capture without a prefix. *)
Lemma empty_prefix_witness :
  re_fname_groups "_20120304-000000001.fits"
    = Some [Some ""; Some "2012"; Some "03"; Some "04"] /\
  join "/data/out" [""; "2012"; "03"; "04"] = "/data/out/2012/03/04" /\
  exists st',
    process_one_file false "/data/in" "/data/out" "_20120304-000000001.fits"
      (Toy.entered Toy.w0) = (Ok tt, st') /\
    calls (trace st') =
      [ ["/bin/gzip"; "-1"; "/data/in/_20120304-000000001.fits"];
        ["/bin/mkdir"; "-p"; "/data/out/2012/03/04"];
        ["/bin/mv"; "/data/in/_20120304-000000001.fits.gz"; "/data/out/2012/03/04"] ].
Proof.
  pose proof (empty_prefix (W := Toy.world) "2012" "03" "04" "000000001"
                eq_refl eq_refl eq_refl eq_refl) as (H1 & _ & H3 & _ & H5).
  split; [exact H1|]. split; [exact (H3 "/data/out")|].
  refine (H5 false "/data/in" "/data/out" "/data/out" (Toy.entered Toy.w0) _ _ _);
    [reflexivity | reflexivity | right; reflexivity].
Defined.

(** * Further properties *)

(** ** Names and paths *)

Module MoreNames.

Lemma append_cancel_r (c : string) : forall a b, a ++ c = b ++ c -> a = b.
Proof.
  induction a as [|x a IH]; intros [|z b] H; simpl in H.
  - reflexivity.
  - exfalso. apply (f_equal String.length) in H. simpl in H.
    rewrite length_append in H. lia.
  - exfalso. apply (f_equal String.length) in H. simpl in H.
    rewrite length_append in H. lia.
  - injection H as -> H. f_equal. now apply IH.
Qed.

(** A name whose compressed name matches is the compressed name without
    its [.gz]: it ends with [.fits] and matches with the same groups. *)
Lemma gz_match_inv (fn : string) (gs : list (option string)) :
  re_fname_groups (fn ++ ".gz") = Some gs ->
  re_fname_groups fn = Some gs /\ endswith fn ".fits" = true.
Proof.
  intros Eg.
  destruct (re_fname_groups_sound _ _ Eg)
    as (p & y & m & d & n & gz & e & -> & Hs & Hp & Hy & Hm & Hd & Hn & Hgz & Hnl).
  assert (Hend : endswith (fits_name p y m d n gz e) ".gz" = true)
    by (rewrite <- Hs; apply endswith_app).
  destruct (fits_name_endswith_gz _ _ _ _ _ _ _ Hgz Hnl Hend) as [-> ->].
  rewrite (fits_name_tail _ _ _ _ _ ".gz" "") in Hs.
  change (".gz" ++ "") with ".gz" in Hs.
  apply append_cancel_r in Hs. subst fn. split.
  - apply re_fname_groups_complete; auto.
  - replace (fits_name p y m d n "" "")
      with ((p ++ "_" ++ y ++ m ++ d ++ "-" ++ n) ++ ".fits")
      by (unfold fits_name; now rewrite !append_assoc).
    apply endswith_app.
Qed.

End MoreNames.

Import MoreNames.

(** X1.  Line 100 hands [move_file] the name with [.gz] appended.  For a
    name that ends with [.fits], as every candidate of a poll does, the
    pattern takes the compressed name exactly if it takes the name itself,
    and with the same groups.  And whenever the pattern takes a name with
    [.gz] appended, the name before it ends with [.fits] and is taken with
    these groups. *)
Theorem gz_suffix_keeps_parse (fn : string) :
  (endswith fn ".fits" = true ->
   re_fname_groups (fn ++ ".gz") = re_fname_groups fn) /\
  (forall gs,
     re_fname_groups (fn ++ ".gz") = Some gs ->
     re_fname_groups fn = Some gs /\ endswith fn ".fits" = true).
Proof.
  split; [|apply gz_match_inv].
  intros He.
  destruct (re_fname_groups fn) as [gs|] eqn:E; [now apply gz_keeps_groups|].
  destruct (re_fname_groups (fn ++ ".gz")) as [gs|] eqn:Eg; [|reflexivity].
  apply gz_match_inv in Eg as [Eg _]. congruence.
Qed.

Module MorePaths.

Lemma startswith_append (a b : string) : startswith (a ++ b) a = true.
Proof.
  induction a as [|c a IH]; simpl; [reflexivity|].
  now rewrite Ascii.eqb_refl, IH.
Qed.

(** A relative component is appended: the path so far stays in front, the
    component comes last. *)
Lemma join2_extends (path b : string) :
  startswith b "/" = false ->
  (exists t, join2 path b = path ++ t) /\ endswith (join2 path b) b = true.
Proof.
  intros Hb. unfold join2. rewrite Hb.
  destruct (String.eqb path "" || endswith path "/")%bool.
  - split; [now exists b | apply endswith_app].
  - split; [now exists ("/" ++ b)|].
    rewrite <- append_assoc. apply endswith_app.
Qed.

Lemma join_extends (ps : list string) :
  Forall (fun b => startswith b "/" = false) ps ->
  forall a, exists t, join a ps = a ++ t.
Proof.
  induction 1 as [|b ps Hb _ IH]; intros a.
  - exists "". now rewrite append_nil_r.
  - destruct (proj1 (join2_extends a b Hb)) as [t Ht].
    destruct (IH (join2 a b)) as [t' Ht'].
    exists (t ++ t'). unfold join in *. cbn [fold_left]. now rewrite Ht', Ht, append_assoc.
Qed.

(** The prefix of a name that matches is where the name begins. *)
Lemma prefix_of_name (fname p y m d : string) :
  re_fname_groups fname = Some [Some p; Some y; Some m; Some d] ->
  exists rest,
    fname = p ++ "_" ++ rest /\
    digits 4 y = true /\ digits 2 m = true /\ digits 2 d = true.
Proof.
  intros H. destruct (re_fname_groups_sound _ _ H)
    as (p' & y' & m' & d' & n & gz & e & [= <- <- <- <-] & -> & _ & Hy & Hm & Hd & _).
  eexists. split; [reflexivity | auto].
Qed.

End MorePaths.

Import MorePaths.

(** X2.  For a name that matches and has no slash in it, as a directory
    listing gives it, the two joins only append: no component replaces what
    is before it.  The archive directory
    [os.path.join(dstbasedir, prefix, year, month, day)] is the string
    [dstbasedir] with more after it, and the source path
    [os.path.join(srcdir, fname)] is [srcdir] with more after it and ends
    with the name. *)
Theorem relative_name_appends (fname srcdir base p y m d : string) :
  lacks "/" fname = true ->
  re_fname_groups fname = Some [Some p; Some y; Some m; Some d] ->
  startswith (join base [p; y; m; d]) base = true /\
  startswith (join srcdir [fname]) srcdir = true /\
  endswith (join srcdir [fname]) fname = true.
Proof.
  intros Hs Hm.
  destruct (prefix_of_name _ _ _ _ _ Hm) as (rest & Hfn & Hy & Hmo & Hd).
  assert (Hp : lacks "/" p = true).
  { rewrite Hfn, lacks_app in Hs. now apply andb_true_iff in Hs as [Hs _]. }
  split; [|split].
  - destruct (join_extends [p; y; m; d]) with (a := base) as [t ->].
    + repeat constructor;
        [now apply lacks_not_abs | now apply (digits_relative 3)
         | now apply (digits_relative 1) | now apply (digits_relative 1)].
    + apply startswith_append.
  - destruct (proj1 (join2_extends srcdir fname (lacks_not_abs _ Hs))) as [t Ht].
    unfold join. cbn [fold_left]. rewrite Ht. apply startswith_append.
  - apply (join2_extends srcdir fname (lacks_not_abs _ Hs)).
Qed.

(** X3.  [move_file] on a name that matches and begins with a slash: the
    prefix group begins with the slash too, and [os.path.join] drops what
    comes before an absolute component; so the archive directory is joined
    from the prefix group on, without [dstbasedir], and the source path is
    the name itself, without [srcdir]. *)
Theorem absolute_name_overrides (fname srcdir base p y m d : string) :
  startswith fname "/" = true ->
  re_fname_groups fname = Some [Some p; Some y; Some m; Some d] ->
  startswith p "/" = true /\
  join base [p; y; m; d] = join p [y; m; d] /\
  join srcdir [fname] = fname.
Proof.
  intros Hs Hm.
  destruct (prefix_of_name _ _ _ _ _ Hm) as (rest & Hfn & _).
  assert (Hp : startswith p "/" = true).
  { rewrite Hfn in Hs. destruct p as [|c p]; [discriminate Hs | exact Hs]. }
  split; [exact Hp|]. split.
  - assert (E : join2 base p = p) by (unfold join2; now rewrite Hp).
    unfold join. cbn [fold_left]. now rewrite E.
  - unfold join. cbn [fold_left]. unfold join2. now rewrite Hs.
Qed.

(** ** One file *)

Section Files.

Context {W : Type} {os : OS W}.

Ltac steps :=
  unfold gzip, mkdir, mv;
  unfold bind, when, isdir, call, write, flush, ret, read_quit, sleep, listdir;
  cbn [negb fst snd].

Arguments move_file : simpl never.
Arguments join : simpl never.
Arguments re_fname_groups : simpl never.

(** What one file adds to the trace is of one of the shapes of
    [file_events]. *)
Lemma process_one_file_trace (v : bool) (srcdir base0 base fn : string) (st : state W) :
  dstbasedir st = Some base ->
  exists new,
    trace (snd (process_one_file v srcdir base0 fn st)) = (trace st ++ new)%list /\
    file_events v srcdir base fn new.
Proof.
  intros Hb. unfold process_one_file, file_events.
  set (src := join srcdir [fn]). set (gz := fn ++ ".gz").
  set (pre := if v then log (EWrite (src ++ " -> ")) st else st).
  assert (E1 : (when v (write (src ++ " -> "))) st = (Ok tt, pre))
    by (unfold pre; now destruct v).
  unfold bind at 1. rewrite E1.
  unfold bind at 1. unfold gzip. unfold bind at 1. unfold call.
  destruct (os_call (gzip_cmd ++ [src]) (world pre)) as [rc w1].
  cbn [ret].
  set (mid := advance w1 (log (ECall (gzip_cmd ++ [src])) pre)).
  assert (Hmid : dstbasedir mid = Some base) by (unfold mid, pre; now destruct v).
  assert (Tmid : trace mid =
                 (trace st ++ (if v then [EWrite (src ++ " -> ")] else [])
                    ++ [ECall (gzip_cmd ++ [src])])%list)
    by (unfold mid, pre; destruct v; simpl; now rewrite <- ?List.app_assoc).
  clearbody mid. clear E1 pre.
  destruct (rc =? 0)%Z.
  - destruct (re_fname_groups gz) as [gs|] eqn:Eg.
    + destruct (re_fname_groups_sound _ _ Eg)
        as (p & y & m & d & _ & _ & _ & -> & _).
      unfold bind at 1. unfold bind at 1.
      rewrite (move_file_matched _ _ _ _ _ _ _ _ _ _ Eg Hmid).
      set (dstdir := join base [p; y; m; d]).
      unfold mv, mkdir.
      set (move := (mv_cmd ++ [join srcdir [gz]; dstdir])%list).
      set (make := (mkdir_cmd ++ [dstdir])%list).
      set (zip := (gzip_cmd ++ [src])%list) in *.
      set (shown := join dstdir [gz]).
      destruct mid as [wm dm qm tm]. simpl in Tmid. subst tm.
      steps. simpl.
      destruct (os_isdir dstdir wm); simpl.
      * destruct v; simpl;
          destruct (os_call move wm) as [rc2 w2]; simpl;
          rewrite <- ?List.app_assoc; simpl;
          (eexists; split; [reflexivity|]);
          right; exists p, y, m, d; (split; [reflexivity|]); left; reflexivity.
      * destruct (os_call make wm) as [rc1 w2]; simpl.
        destruct (rc1 =? 0)%Z; simpl.
        -- destruct v; simpl;
             destruct (os_call move w2) as [rc2 w3]; simpl;
             rewrite <- ?List.app_assoc; simpl;
             (eexists; split; [reflexivity|]);
             right; exists p, y, m, d; (split; [reflexivity|]); right; right; reflexivity.
        -- destruct v; simpl; rewrite <- ?List.app_assoc; simpl;
             (eexists; split; [reflexivity|]);
             right; exists p, y, m, d; (split; [reflexivity|]); right; left; reflexivity.
    + unfold bind at 1. unfold bind at 1.
      rewrite (move_file_unmatched _ _ _ _ _ Eg).
      destruct mid as [wm dm qm tm]. simpl in Tmid. subst tm.
      destruct v; steps; simpl; rewrite <- ?List.app_assoc; simpl;
        (eexists; split; [reflexivity|]); left; reflexivity.
  - destruct mid as [wm dm qm tm]. simpl in Tmid. subst tm.
    destruct v; steps; simpl; rewrite <- ?List.app_assoc; simpl;
      (eexists; split; [reflexivity|]); left; reflexivity.
Qed.

(** Processing a file returns, and what it adds has one of these shapes. *)
Lemma process_one_file_events (v : bool) (srcdir base0 base fn : string) (st : state W) :
  dstbasedir st = Some base ->
  exists st' new,
    process_one_file v srcdir base0 fn st = (Ok tt, st') /\
    continues st st' new /\
    file_events v srcdir base fn new.
Proof.
  intros Hb.
  assert (Hd : dstbasedir st <> None) by congruence.
  destruct (runs_process_one_file v srcdir base0 fn st Hd)
    as ([] & st' & new & E & Hk & _).
  destruct (process_one_file_trace v srcdir base0 base fn st Hb) as (new' & Ht & Hf).
  rewrite E in Ht. simpl in Ht.
  destruct Hk as (Ht' & Hk).
  assert (new' = new) by (rewrite Ht' in Ht; now apply List.app_inv_head in Ht).
  subst new'. exists st', new. repeat split; auto; apply Hk.
Qed.

(** X4.  A [gzip] that returns a code other than 0: [move_file] is not
    called.  Processing the file is then the call of [gzip] alone, between
    the two writes and the flush of verbose mode, and it returns normally,
    also where [dstbasedir] is not bound.  The state it ends in is the state
    before with the world as [gzip] left it, the flag set if a signal came
    with the call, and these events added. *)
Theorem gzip_failure_leaves_file (v : bool) (srcdir base0 fn : string) (st : state W) :
  let src := join srcdir [fn] in
  let zip := (gzip_cmd ++ [src])%list in
  let w1 := snd (os_call zip (world st)) in
  fst (os_call zip (world st)) <> 0%Z ->
  process_one_file v srcdir base0 fn st =
    (Ok tt,
     mkState w1 (dstbasedir st) (quit st || os_signalled w1)
       (trace st ++
        (if v then [EWrite (src ++ " -> ")] else []) ++
        ECall zip :: (if v then [EWrite nl; EFlush] else []))%list).
Proof.
  intros src zip w1 Hrc. subst w1.
  unfold process_one_file. fold src. unfold gzip. fold zip. clearbody zip src.
  destruct st as [w0 d0 q0 t0]. cbn [world dstbasedir quit trace] in *.
  destruct v; steps; simpl;
    destruct (os_call zip w0) as [rc w1]; simpl in *;
    (destruct (rc =? 0)%Z eqn:Erc; [apply Z.eqb_eq in Erc; contradiction|]);
    simpl; unfold log, advance; simpl; rewrite <- ?List.app_assoc; reflexivity.
Qed.

(** X5.  What verbose mode writes for a file, in the loop: the source path
    and [ -> ], then the path of the compressed file in its archive
    directory exactly if [mv] was called, then a newline; and the flush is
    the last thing done for the file.  The path is written before [mv] runs,
    so it is there also when [mv] fails; a [gzip] that fails, a name that
    does not match and a [mkdir] that fails leave the line without a
    destination. *)
Theorem verbose_line (srcdir base0 base fn : string) (st : state W) :
  dstbasedir st = Some base ->
  let src := join srcdir [fn] in
  let gz := fn ++ ".gz" in
  exists st' new,
    process_one_file true srcdir base0 fn st = (Ok tt, st') /\
    trace st' = (trace st ++ new)%list /\
    (exists before, new = (before ++ [EFlush])%list) /\
    ((filter is_mv_call (calls new) = [] /\
      output new = src ++ " -> " ++ nl) \/
     (exists p y m d,
        re_fname_groups gz = Some [Some p; Some y; Some m; Some d] /\
        let dstdir := join base [p; y; m; d] in
        filter is_mv_call (calls new) = [(mv_cmd ++ [join srcdir [gz]; dstdir])%list] /\
        output new = src ++ " -> " ++ join dstdir [gz] ++ nl)).
Proof.
  intros Hb src gz.
  destruct (process_one_file_events true srcdir base0 base fn st Hb)
    as (st' & new & E & (Ht & _) & Hf).
  exists st', new. split; [exact E|]. split; [exact Ht|].
  unfold file_events in Hf. fold src gz in Hf. cbn [List.app] in Hf.
  destruct Hf as [-> | (p & y & m & d & Eg & [-> | [-> | ->]])].
  - split; [eexists (_ :: _ :: [_]); reflexivity|].
    left. split; [reflexivity|].
    cbn [output gzip_cmd List.app]. now rewrite append_nil_r, append_assoc.
  - split; [eexists (_ :: _ :: _ :: _ :: _ :: [_]); reflexivity|].
    right. exists p, y, m, d. split; [exact Eg|]. split; [reflexivity|].
    cbn [output gzip_cmd mv_cmd List.app]. now rewrite append_nil_r, append_assoc.
  - split; [eexists (_ :: _ :: _ :: _ :: [_]); reflexivity|].
    left. split; [reflexivity|].
    cbn [output gzip_cmd mkdir_cmd List.app]. now rewrite append_nil_r, append_assoc.
  - split; [eexists (_ :: _ :: _ :: _ :: _ :: _ :: [_]); reflexivity|].
    right. exists p, y, m, d. split; [exact Eg|]. split; [reflexivity|].
    cbn [output gzip_cmd mkdir_cmd mv_cmd List.app]. now rewrite append_nil_r, append_assoc.
Qed.


End Files.

(** ** The shape of a run *)

Module ShapeFacts.

Lemma sleeps_app (a b : list event) : sleeps (a ++ b) = sleeps a + sleeps b.
Proof. induction a as [|[] a IH]; simpl; auto. Qed.

Lemma script_calls (srcdir base : string) (l : list event) :
  Forall (script_event srcdir base) l -> Forall (script_call srcdir base) (calls l).
Proof.
  induction 1 as [|e l He _ IH]; [constructor|].
  destruct e; simpl; try exact IH. constructor; [exact He | exact IH].
Qed.

Section Shape.

Variables (v : bool) (srcdir base : string).

(** A file neither lists nor sleeps, and calls [gzip] once. *)
Lemma file_events_counts (fn : string) (n : list event) :
  file_events v srcdir base fn n ->
  sleeps n = 0 /\ polls n = 0 /\ flag_reads n = 0 /\
  filter is_gzip_call (calls n) = [(gzip_cmd ++ [join srcdir [fn]])%list].
Proof.
  unfold file_events.
  intros [-> | (p & y & m & d & _ & [-> | [-> | ->]])]; destruct v; repeat split.
Qed.

Lemma file_events_script (fn : string) (n : list event) :
  endswith fn ".fits" = true ->
  file_events v srcdir base fn n ->
  Forall (script_event srcdir base) n.
Proof.
  intros He. unfold file_events.
  assert (Hzip : script_event srcdir base (ECall (gzip_cmd ++ [join srcdir [fn]])))
    by (exists fn; auto).
  intros [-> | (p & y & m & d & Eg & H)].
  - destruct v; repeat constructor; exact Hzip.
  - apply gz_match_inv in Eg as [Eg _].
    assert (Hdir : script_event srcdir base (EIsdir (join base [p; y; m; d])))
      by (exists fn, p, y, m, d; auto).
    assert (Hmake : script_event srcdir base
                      (ECall (mkdir_cmd ++ [join base [p; y; m; d]])))
      by (exists fn; split; [exact He|]; right; exists p, y, m, d; auto).
    assert (Hmove : script_event srcdir base
                      (ECall (mv_cmd ++ [join srcdir [fn ++ ".gz"]; join base [p; y; m; d]])))
      by (exists fn; split; [exact He|]; right; exists p, y, m, d; auto).
    destruct H as [-> | [-> | ->]]; destruct v; repeat constructor; assumption.
Qed.

Lemma batch_trace_counts (done : list string) (b : list event) :
  batch_trace v srcdir base done b ->
  sleeps b = 0 /\ polls b = 0 /\ flag_reads b = List.length done /\
  filter is_gzip_call (calls b) =
    map (fun fn => gzip_cmd ++ [join srcdir [fn]])%list done.
Proof.
  induction 1 as [|fn done n more Hf _ (S2 & P2 & R2 & G2)]; [repeat split|].
  destruct (file_events_counts _ _ Hf) as (S1 & P1 & R1 & G1).
  rewrite sleeps_app, polls_app, flag_reads_app, calls_app, filter_app, S1, P1, R1, G1.
  cbn [sleeps polls flag_reads calls]. rewrite S2, P2, R2, G2. repeat split.
Qed.

Lemma batch_trace_all (Q : event -> Prop) (done : list string) (b : list event) :
  Q EReadQuit ->
  (forall fn n, In fn done -> file_events v srcdir base fn n -> Forall Q n) ->
  batch_trace v srcdir base done b -> Forall Q b.
Proof.
  intros Hq Hf H. induction H as [|fn done n more Hn _ IH]; [constructor|].
  apply Forall_app. split; [apply (Hf fn); [now left | exact Hn]|].
  constructor; [exact Hq|]. apply IH. intros fn' n' Hin. apply Hf. now right.
Qed.

Lemma loop_trace_counts (rounds : list event) :
  loop_trace v srcdir base rounds -> sleeps rounds = polls rounds.
Proof.
  induction 1 as [|done b more _ Hb _ IH]; [reflexivity|].
  destruct (batch_trace_counts _ _ Hb) as (S1 & P1 & _).
  cbn [sleeps polls]. rewrite sleeps_app, polls_app, S1, P1.
  cbn [sleeps polls]. now rewrite IH.
Qed.

Lemma loop_trace_all (Q : event -> Prop) (rounds : list event) :
  Q EReadQuit -> Q (EListdir srcdir) -> Q ESleep ->
  (forall fn n, endswith fn ".fits" = true ->
                file_events v srcdir base fn n -> Forall Q n) ->
  loop_trace v srcdir base rounds -> Forall Q rounds.
Proof.
  intros Hq Hl Hs Hf H. induction H as [|done b more Hd Hb _ IH]; [constructor|].
  constructor; [exact Hq|]. constructor; [exact Hl|].
  apply Forall_app. split; [|now constructor].
  apply (batch_trace_all Q done); [exact Hq | | exact Hb].
  intros fn n Hin. apply Hf. rewrite Forall_forall in Hd. now apply Hd.
Qed.

End Shape.

End ShapeFacts.

Import ShapeFacts.

Section Grammar.

Context {W : Type} {os : OS W}.

Variables (v : bool) (srcdir base0 base : string).

Lemma continues_refl (st : state W) : continues st st [].
Proof. repeat split; auto. now rewrite List.app_nil_r. Qed.

Lemma continues_bound (st st' : state W) (new : list event) :
  continues st st' new -> dstbasedir st = Some base -> dstbasedir st' = Some base.
Proof. intros (_ & -> & _). auto. Qed.

(** A batch: the files done, a first part of the list, in its order; the
    rest is left out only with the flag set. *)
Lemma for_files_trace :
  forall fnlist (st : state W),
    dstbasedir st = Some base ->
    exists st' new done rest,
      for_files v srcdir base0 fnlist st = (Ok tt, st') /\
      continues st st' new /\
      fnlist = (done ++ rest)%list /\
      batch_trace v srcdir base done new /\
      (rest = [] \/ quit st' = true).
Proof.
  induction fnlist as [|fn fnlist IH]; intros st Hb; cbn [for_files].
  - exists st, [], [], []. split; [reflexivity|]. split; [apply continues_refl|].
    split; [reflexivity|]. split; [constructor | now left].
  - destruct (process_one_file_events v srcdir base0 base fn st Hb)
      as (st1 & n1 & E1 & Hk1 & Hf).
    unfold bind at 1. rewrite E1. unfold bind at 1. unfold read_quit.
    pose proof (continues_bound _ _ _ Hk1 Hb) as Hb1.
    assert (Hk : continues st (log EReadQuit st1) (n1 ++ [EReadQuit]))
      by (apply (continues_trans _ st1); [exact Hk1 | apply continues_log]).
    destruct (quit st1) eqn:Hq.
    + exists (log EReadQuit st1), (n1 ++ [EReadQuit])%list, [fn], fnlist.
      split; [reflexivity|]. split; [exact Hk|]. split; [reflexivity|].
      split; [constructor; [exact Hf | constructor] | now right].
    + destruct (IH (log EReadQuit st1) Hb1)
        as (st' & n2 & done & rest & E2 & Hk2 & -> & Hbt & Hr).
      exists st', (n1 ++ EReadQuit :: n2)%list, (fn :: done), rest.
      split; [exact E2|]. split; [|split; [reflexivity|]; split; [now constructor | exact Hr]].
      replace (n1 ++ EReadQuit :: n2)%list with ((n1 ++ [EReadQuit]) ++ n2)%list
        by now rewrite <- List.app_assoc.
      now apply (continues_trans _ (log EReadQuit st1)).
Qed.

Lemma candidates_fits (entries : list string) :
  Forall (fun fn => endswith fn ".fits" = true) (candidates entries).
Proof. apply Forall_forall. intros fn H. now apply filter_In in H. Qed.

(** A round: the listing, the files done, the sleep. *)
Lemma poll_trace (st : state W) :
  dstbasedir st = Some base ->
  exists st' done b,
    poll v srcdir base0 st = (Ok tt, st') /\
    continues st st' (EListdir srcdir :: b ++ [ESleep]) /\
    Forall (fun fn => endswith fn ".fits" = true) done /\
    batch_trace v srcdir base done b.
Proof.
  intros Hb. unfold poll. unfold bind at 1. unfold listdir.
  set (fnlist := candidates (os_listdir srcdir (world st))).
  assert (Hb1 : dstbasedir (log (EListdir srcdir) st) = Some base) by exact Hb.
  destruct (for_files_trace fnlist _ Hb1) as (st1 & b & done & rest & E & Hk & Hl & Hbt & _).
  unfold bind. rewrite E.
  assert (Hd1 : dstbasedir st1 <> None)
    by (rewrite (continues_bound _ _ _ Hk Hb1); discriminate).
  destruct (runs_sleep st1 Hd1) as ([] & st2 & n & E2 & Hk2 & ->).
  rewrite E2. exists st2, done, b. split; [reflexivity|]. split.
  - change (EListdir srcdir :: b ++ [ESleep])%list
      with ([EListdir srcdir] ++ b ++ [ESleep])%list.
    apply (continues_trans _ (log (EListdir srcdir) st)); [apply continues_log|].
    now apply (continues_trans _ st1).
  - split; [|exact Hbt].
    pose proof (candidates_fits (os_listdir srcdir (world st))) as Hc.
    fold fnlist in Hc. rewrite Hl in Hc. now apply Forall_app in Hc.
Qed.

(** The loop: whole rounds, and the test of the flag that ends it, if it
    has ended. *)
Lemma main_loop_trace :
  forall fuel (st : state W) r st',
    dstbasedir st = Some base ->
    main_loop fuel v srcdir base0 st = (r, st') ->
    exists rounds,
      loop_trace v srcdir base rounds /\
      ((r = None /\ continues st st' rounds) \/
       (r = Some (Ok tt) /\ quit st' = true /\
        continues st st' (rounds ++ [EReadQuit]))).
Proof.
  induction fuel as [|fuel IH]; intros st r st' Hb H; cbn [main_loop] in H.
  - injection H as <- <-. exists []. split; [constructor|]. left.
    split; [reflexivity | apply continues_refl].
  - unfold read_quit in H. destruct (quit st) eqn:Hq.
    + injection H as <- <-. exists []. split; [constructor|]. right.
      split; [reflexivity|]. split; [exact Hq | apply continues_log].
    + assert (Hb1 : dstbasedir (log EReadQuit st) = Some base) by exact Hb.
      destruct (poll_trace _ Hb1) as (st2 & done & b & E & Hk & Hd & Hbt).
      rewrite E in H.
      pose proof (continues_bound _ _ _ Hk Hb1) as Hb2.
      destruct (IH _ _ _ Hb2 H) as (more & Hm & Hr).
      exists (EReadQuit :: EListdir srcdir :: b ++ ESleep :: more)%list.
      split; [now apply (loop_round _ _ _ done)|].
      assert (Hk0 : continues st st2 ([EReadQuit] ++ EListdir srcdir :: b ++ [ESleep]))
        by (apply (continues_trans _ (log EReadQuit st)); [apply continues_log | exact Hk]).
      destruct Hr as [[-> Hk3] | (-> & Hq' & Hk3)]; [left | right];
        (split; [reflexivity|]); [|split; [exact Hq'|]];
        pose proof (continues_trans _ _ _ _ _ Hk0 Hk3) as Hk4;
        cbn [List.app] in Hk4 |- *; rewrite <- ?List.app_assoc in Hk4;
        cbn [List.app] in Hk4; rewrite <- ?List.app_assoc; exact Hk4.
Qed.

End Grammar.

Section LoopProperties.

Context {W : Type} {os : OS W}.

(** What the loop added to the trace, whether it has ended or not. *)
Lemma main_loop_added (v : bool) (srcdir base0 base : string) (fuel : nat)
  (st : state W) r st' :
  dstbasedir st = Some base ->
  main_loop fuel v srcdir base0 st = (r, st') ->
  exists rounds last,
    loop_trace v srcdir base rounds /\
    (last = [] \/ last = [EReadQuit]) /\
    trace st' = (trace st ++ rounds ++ last)%list.
Proof.
  intros Hb H.
  destruct (main_loop_trace v srcdir base0 base fuel st r st' Hb H)
    as (rounds & Hl & [[_ (Ht & _)] | (_ & _ & (Ht & _))]).
  - exists rounds, []. rewrite List.app_nil_r. auto.
  - exists rounds, [EReadQuit]. auto.
Qed.


End LoopProperties.

(** ** Verbose mode *)

Module EraseFacts.

Lemma erase_app (a b : list event) : erase (a ++ b) = (erase a ++ erase b)%list.
Proof. apply filter_app. Qed.

Lemma calls_erase (t : list event) : calls (erase t) = calls t.
Proof. induction t as [|[] t IH]; simpl; congruence. Qed.

Lemma polls_erase (t : list event) : polls (erase t) = polls t.
Proof. induction t as [|[] t IH]; simpl; congruence. Qed.

Lemma flag_reads_erase (t : list event) : flag_reads (erase t) = flag_reads t.
Proof. induction t as [|[] t IH]; simpl; congruence. Qed.

Lemma output_erase (t : list event) : output (erase t) = "".
Proof. induction t as [|[] t IH]; simpl; congruence. Qed.

End EraseFacts.

Import EraseFacts.

Create HintDb mirrors discriminated.

Section Mirrors.

Context {W : Type} {os : OS W}.

Lemma silent_log (e : event) (st : state W) :
  silent (log e st) = if is_output e then silent st else log e (silent st).
Proof.
  unfold silent, log. cbn [world dstbasedir quit trace]. rewrite erase_app.
  destruct e; cbn [erase filter is_output negb]; now rewrite ?List.app_nil_r.
Qed.

Lemma silent_advance (w : W) (st : state W) :
  silent (advance w st) = advance w (silent st).
Proof. reflexivity. Qed.

Lemma mirrors_ret {A : Type} (a : A) : mirrors (W := W) (ret a) (ret a).
Proof. intros st. reflexivity. Qed.

Lemma mirrors_raise {A : Type} (e : exn) : mirrors (W := W) (A := A) (raise e) (raise e).
Proof. intros st. reflexivity. Qed.

Lemma mirrors_bind {A B : Type} (c c' : M W A) (f f' : A -> M W B) :
  mirrors c c' -> (forall a, mirrors (f a) (f' a)) -> mirrors (bind c f) (bind c' f').
Proof.
  intros Hc Hf st. unfold bind. rewrite Hc.
  destruct (c st) as [[a|e] st1]; cbn [fst snd]; [apply Hf | reflexivity].
Qed.

Lemma mirrors_call (argv : list string) : mirrors (call argv) (call argv).
Proof.
  intros st. unfold call. cbn [world silent].
  destruct (os_call argv (world st)) as [rc w]. cbn [fst snd].
  now rewrite silent_advance, silent_log.
Qed.

Lemma mirrors_isdir (path : string) : mirrors (isdir path) (isdir path).
Proof. intros st. unfold isdir. cbn [fst snd]. now rewrite silent_log. Qed.

Lemma mirrors_listdir (path : string) : mirrors (listdir path) (listdir path).
Proof. intros st. unfold listdir. cbn [fst snd]. now rewrite silent_log. Qed.

Lemma mirrors_sleep : mirrors (W := W) sleep sleep.
Proof.
  intros st. unfold sleep. cbn [fst snd]. now rewrite silent_advance, silent_log.
Qed.

Lemma mirrors_read_quit : mirrors (W := W) read_quit read_quit.
Proof. intros st. unfold read_quit. cbn [fst snd]. now rewrite silent_log. Qed.

Lemma mirrors_read_dstbasedir : mirrors (W := W) read_dstbasedir read_dstbasedir.
Proof.
  intros st. unfold read_dstbasedir. cbn [dstbasedir silent].
  now destruct (dstbasedir st).
Qed.

Lemma mirrors_write (text : string) : mirrors (W := W) (write text) (ret tt).
Proof. intros st. unfold write, ret. cbn [fst snd]. now rewrite silent_log. Qed.

Lemma mirrors_flush : mirrors (W := W) flush (ret tt).
Proof. intros st. unfold flush, ret. cbn [fst snd]. now rewrite silent_log. Qed.

(** What verbose mode does on top is writing. *)
Lemma mirrors_when (v : bool) (c c' : M W unit) :
  mirrors c (ret tt) -> mirrors (when v c) (when false c').
Proof. intros Hc. destruct v; [exact Hc | apply mirrors_ret]. Qed.

Lemma mirrors_strings (gs : list (option string)) : mirrors (W := W) (strings gs) (strings gs).
Proof.
  induction gs as [|[g|] gs IH]; cbn [strings].
  - apply mirrors_ret.
  - apply mirrors_bind; [exact IH | intros; apply mirrors_ret].
  - apply mirrors_raise.
Qed.

Lemma mirrors_gzip (fname : string) : mirrors (gzip fname) (gzip fname).
Proof. apply mirrors_bind; [apply mirrors_call | intros; apply mirrors_ret]. Qed.

Lemma mirrors_mkdir (dname : string) : mirrors (mkdir dname) (mkdir dname).
Proof. apply mirrors_bind; [apply mirrors_call | intros; apply mirrors_ret]. Qed.

Lemma mirrors_mv (src dst : string) : mirrors (mv src dst) (mv src dst).
Proof. apply mirrors_bind; [apply mirrors_call | intros; apply mirrors_ret]. Qed.

Hint Resolve mirrors_ret mirrors_raise mirrors_call mirrors_isdir mirrors_listdir
  mirrors_sleep mirrors_read_quit mirrors_read_dstbasedir mirrors_write mirrors_flush
  mirrors_when mirrors_strings mirrors_gzip mirrors_mkdir mirrors_mv : mirrors.

Lemma mirrors_move_file (fname srcdir x : string) (v : bool) :
  mirrors (move_file fname srcdir x v) (move_file fname srcdir x false).
Proof.
  unfold move_file. destruct (re_fname_groups fname) as [gs|]; [|auto with mirrors].
  apply mirrors_bind; [auto with mirrors | intros base].
  apply mirrors_bind; [auto with mirrors | intros segs].
  apply mirrors_bind; [auto with mirrors | intros present].
  assert (Hfin : mirrors
            (bind (when v (write (join (join base segs) [fname])))
                  (fun _ => mv (join srcdir [fname]) (join base segs)))
            (bind (when false (write (join (join base segs) [fname])))
                  (fun _ => mv (join srcdir [fname]) (join base segs))))
    by (apply mirrors_bind; auto with mirrors).
  destruct present; cbn [negb]; [exact Hfin|].
  apply mirrors_bind; [auto with mirrors | intros made].
  destruct made; cbn [negb]; [exact Hfin | auto with mirrors].
Qed.

Lemma mirrors_process_one_file (v : bool) (srcdir base fn : string) :
  mirrors (process_one_file v srcdir base fn) (process_one_file false srcdir base fn).
Proof.
  unfold process_one_file.
  apply mirrors_bind; [auto with mirrors | intros _].
  apply mirrors_bind; [auto with mirrors | intros zipped].
  apply mirrors_bind.
  - destruct zipped; [|auto with mirrors].
    apply mirrors_bind; [apply mirrors_move_file | auto with mirrors].
  - intros _. apply mirrors_when.
    change (@ret W unit tt) with (bind (@ret W unit tt) (fun _ => @ret W unit tt)).
    apply mirrors_bind; auto with mirrors.
Qed.

Lemma mirrors_for_files (v : bool) (srcdir base : string) (fnlist : list string) :
  mirrors (for_files v srcdir base fnlist) (for_files false srcdir base fnlist).
Proof.
  induction fnlist as [|fn rest IH]; cbn [for_files]; [auto with mirrors|].
  apply mirrors_bind; [apply mirrors_process_one_file | intros _].
  apply mirrors_bind; [auto with mirrors | intros q].
  destruct q; [auto with mirrors | exact IH].
Qed.

Lemma mirrors_poll (v : bool) (srcdir base : string) :
  mirrors (poll v srcdir base) (poll false srcdir base).
Proof.
  unfold poll. apply mirrors_bind; [auto with mirrors | intros entries].
  apply mirrors_bind; [apply mirrors_for_files | auto with mirrors].
Qed.

Lemma mirrors_main_loop (v : bool) (srcdir base : string) :
  forall fuel (st : state W),
    main_loop fuel false srcdir base (silent st) =
      (fst (main_loop fuel v srcdir base st),
       silent (snd (main_loop fuel v srcdir base st))).
Proof.
  induction fuel as [|fuel IH]; intros st; cbn [main_loop]; [reflexivity|].
  unfold read_quit. cbn [quit silent].
  change (mkState (world st) (dstbasedir st) (quit st) (erase (trace st)))
    with (silent st).
  destruct (quit st).
  - cbn [fst snd]. now rewrite silent_log.
  - replace (log EReadQuit (silent st)) with (silent (log EReadQuit st))
      by now rewrite silent_log.
    rewrite (mirrors_poll v srcdir base).
    destruct (poll v srcdir base (log EReadQuit st)) as [[[]|e] st2]; cbn [fst snd];
      [apply IH | reflexivity].
Qed.

(** The process has written nothing when the loop is entered or the
    command line refused. *)
Lemma startup_silent (opts : options) (args : list string) (w : W) :
  match startup opts args w with
  | inl (_, st) => silent st = st
  | inr (_, _, st) => silent st = st
  end.
Proof.
  unfold startup.
  destruct args; [|reflexivity].
  destruct (unset (indir opts)); [reflexivity|].
  destruct (unset (outdir opts)); [reflexivity|].
  unfold isdir. cbn [world].
  destruct (os_isdir (os_abspath (value (indir opts)) w) w); cbv iota beta;
    [|reflexivity].
  cbn [world log].
  destruct (os_isdir (os_abspath (value (outdir opts)) w) w); reflexivity.
Qed.

(** X8.  [--verbose] only prints.  The run without it is the run with it,
    with the writes and flushes left out of the trace: the outcome, the
    world, the flag, the calls, the listings and the reads of the flag are
    the same, and nothing is written.  This holds for the script from its
    command line on and for the loop from any state, whatever the utilities
    answer and whether or not [dstbasedir] is bound.  (A write is an event
    of the trace; it does not fail.) *)
Theorem verbose_only_prints :
  (forall fuel opts args (w : W),
     main fuel (mkOptions (indir opts) (outdir opts) false) args w =
       (fst (main fuel opts args w), silent (snd (main fuel opts args w)))) /\
  (forall fuel v srcdir base (st : state W),
     main_loop fuel false srcdir base (silent st) =
       (fst (main_loop fuel v srcdir base st),
        silent (snd (main_loop fuel v srcdir base st)))) /\
  (forall st : state W,
     world (silent st) = world st /\ quit (silent st) = quit st /\
     calls (trace (silent st)) = calls (trace st) /\
     polls (trace (silent st)) = polls (trace st) /\
     flag_reads (trace (silent st)) = flag_reads (trace st) /\
     output (trace (silent st)) = "").
Proof.
  split; [|split].
  - intros fuel opts args w. unfold main.
    change (startup (mkOptions (indir opts) (outdir opts) false) args w)
      with (startup opts args w).
    pose proof (startup_silent opts args w) as Hs.
    destruct (startup opts args w) as [[o st] | [[srcdir base] st]]; cbn [fst snd].
    + now rewrite Hs.
    + cbn [verbose]. rewrite <- Hs at 1.
      rewrite (mirrors_main_loop (verbose opts) srcdir base fuel st).
      destruct (main_loop fuel (verbose opts) srcdir base st) as [[[[]|e]|] st'];
        reflexivity.
  - intros fuel v srcdir base st. apply mirrors_main_loop.
  - intros st. cbn [silent world quit trace].
    now rewrite calls_erase, polls_erase, flag_reads_erase, output_erase.
Qed.

End Mirrors.

(** ** The whole script *)

Section WholeScript.

Context {W : Type} {os : OS W}.

(** How the loop is entered: with the absolute paths of the two options,
    the second of them bound to the global, and both tested. *)
Lemma startup_entered (opts : options) (args : list string) (w : W)
  (srcdir base : string) (st : state W) :
  startup opts args w = inr (srcdir, base, st) ->
  srcdir = os_abspath (value (indir opts)) w /\
  base = os_abspath (value (outdir opts)) w /\
  st = mkState w (Some base) false [EIsdir srcdir; EIsdir base].
Proof.
  unfold startup.
  destruct args; [|discriminate].
  destruct (unset (indir opts)); [discriminate|].
  destruct (unset (outdir opts)); [discriminate|].
  unfold isdir. cbn [world log].
  destruct (os_isdir (os_abspath (value (indir opts)) w) w); cbv iota beta;
    [|discriminate].
  cbn [world log].
  destruct (os_isdir (os_abspath (value (outdir opts)) w) w); [|discriminate].
  intros [= <- <- <-]. auto.
Qed.

(** A command line that is refused: nothing was run, listed or slept. *)
Lemma startup_refused (opts : options) (args : list string) (w : W)
  (o : outcome) (st : state W) :
  startup opts args w = inl (o, st) ->
  calls (trace st) = [] /\ sleeps (trace st) = 0 /\ polls (trace st) = 0.
Proof.
  unfold startup.
  destruct args; [|now intros [= <- <-]].
  destruct (unset (indir opts)); [now intros [= <- <-]|].
  destruct (unset (outdir opts)); [now intros [= <- <-]|].
  unfold isdir. cbn [world log].
  destruct (os_isdir (os_abspath (value (indir opts)) w) w); cbv iota beta;
    [|now intros [= <- <-]].
  cbn [world log].
  destruct (os_isdir (os_abspath (value (outdir opts)) w) w); [discriminate|].
  now intros [= <- <-].
Qed.

(** X9.  The loop sleeps once in every round it begins, also in the round
    that a signal cuts short: seen at the head of the loop or after its end,
    what it added to the trace has as many sleeps as listings.  So has the
    trace of the whole script, which neither sleeps nor lists before the
    loop. *)
Theorem one_sleep_per_round :
  (forall v srcdir base0 fuel (st : state W) r st',
     dstbasedir st <> None ->
     main_loop fuel v srcdir base0 st = (r, st') ->
     exists new,
       trace st' = (trace st ++ new)%list /\
       sleeps new = polls new) /\
  (forall fuel opts args (w : W),
     let t := trace (snd (main fuel opts args w)) in
     sleeps t = polls t).
Proof.
  assert (Hloop : forall v srcdir base0 fuel (st : state W) r st',
     dstbasedir st <> None ->
     main_loop fuel v srcdir base0 st = (r, st') ->
     exists new, trace st' = (trace st ++ new)%list /\ sleeps new = polls new).
  { intros v srcdir base0 fuel st r st' Hd H.
    destruct (dstbasedir st) as [base|] eqn:Hb; [clear Hd | contradiction].
    destruct (main_loop_added v srcdir base0 base fuel st r st' Hb H)
      as (rounds & last & Hl & Hlast & Ht).
    exists (rounds ++ last)%list. split; [exact Ht|].
    rewrite sleeps_app, polls_app, (loop_trace_counts _ _ _ _ Hl).
    now destruct Hlast as [-> | ->]. }
  split; [exact Hloop|].
  intros fuel opts args w. unfold main.
  destruct (startup opts args w) as [[o st] | [[srcdir base] st]] eqn:E; cbn [snd].
  - destruct (startup_refused _ _ _ _ _ E) as (_ & -> & ->). reflexivity.
  - destruct (startup_entered _ _ _ _ _ _ E) as (_ & _ & Hst).
    destruct (main_loop fuel (verbose opts) srcdir base st) as [r st'] eqn:El.
    assert (Hd : dstbasedir st <> None) by (rewrite Hst; discriminate).
    destruct (Hloop _ _ _ _ _ _ _ Hd El) as (new & Ht & Hn).
    replace (trace (snd (finish (r, st')))) with (trace st')
      by (now destruct r as [[[]|e]|]).
    rewrite Ht, sleeps_app, polls_app, Hn, Hst. reflexivity.
Qed.

(** X10.  All that the loop does to the file system: it lists the source
    directory, asks whether an archive directory is there, and runs
    [gzip -1] on files of the source directory whose names end with [.fits]
    and, for such a name that matches, [mkdir -p] on its archive directory
    and [mv] of the compressed file into that directory.  A run of the
    script calls nothing else, the two directories being the absolute paths
    of [--indir] and [--outdir]. *)
Theorem only_script_events :
  (forall v srcdir base0 base fuel (st : state W) r st',
     dstbasedir st = Some base ->
     main_loop fuel v srcdir base0 st = (r, st') ->
     exists new,
       trace st' = (trace st ++ new)%list /\
       Forall (script_event srcdir base) new) /\
  (forall fuel opts args (w : W),
     Forall (script_call (os_abspath (value (indir opts)) w)
                         (os_abspath (value (outdir opts)) w))
            (calls (trace (snd (main fuel opts args w))))).
Proof.
  assert (Hloop : forall v srcdir base0 base fuel (st : state W) r st',
     dstbasedir st = Some base ->
     main_loop fuel v srcdir base0 st = (r, st') ->
     exists new,
       trace st' = (trace st ++ new)%list /\
       Forall (script_event srcdir base) new).
  { intros v srcdir base0 base fuel st r st' Hb H.
    destruct (main_loop_added v srcdir base0 base fuel st r st' Hb H)
      as (rounds & last & Hl & Hlast & Ht).
    exists (rounds ++ last)%list. split; [exact Ht|].
    apply Forall_app. split.
    - apply (loop_trace_all v srcdir base); simpl; auto.
      intros fn n. apply file_events_script.
    - destruct Hlast as [-> | ->]; repeat constructor. }
  split; [exact Hloop|].
  intros fuel opts args w. unfold main.
  destruct (startup opts args w) as [[o st] | [[srcdir base] st]] eqn:E; cbn [snd].
  - destruct (startup_refused _ _ _ _ _ E) as (-> & _). constructor.
  - destruct (startup_entered _ _ _ _ _ _ E) as (<- & <- & Hst).
    destruct (main_loop fuel (verbose opts) srcdir base st) as [r st'] eqn:El.
    assert (Hb : dstbasedir st = Some base) by now rewrite Hst.
    destruct (Hloop _ _ _ _ _ _ _ _ Hb El) as (new & Ht & Hn).
    replace (trace (snd (finish (r, st')))) with (trace st')
      by (now destruct r as [[[]|e]|]).
    rewrite Ht, calls_app, Hst. cbn [trace calls List.app].
    now apply script_calls.
Qed.

(** X11.  Which message [parser.error] is called with, and when.  The tests
    are made in the order of lines 70 to 83 and the first that fails
    decides: a positional argument, before the options are looked at; then
    [--indir] missing or empty, then [--outdir] missing or empty; then the
    input directory, and only if that is there the output directory, both
    tested by their absolute paths.  Once the loop is entered the script
    does not end in a usage error. *)
Theorem usage_error_messages (fuel : nat) (opts : options) (args : list string)
  (w : W) (msg : string) :
  let srcdir := os_abspath (value (indir opts)) w in
  let base := os_abspath (value (outdir opts)) w in
  fst (main fuel opts args w) = UsageError msg <->
  (args <> [] /\ msg = "Invalid arguments specified.") \/
  (args = [] /\ unset (indir opts) = true /\
   msg = "No input directory specified.") \/
  (args = [] /\ unset (indir opts) = false /\ unset (outdir opts) = true /\
   msg = "No output directory specified.") \/
  (args = [] /\ unset (indir opts) = false /\ unset (outdir opts) = false /\
   os_isdir srcdir w = false /\
   msg = "Input directory does not exist.") \/
  (args = [] /\ unset (indir opts) = false /\ unset (outdir opts) = false /\
   os_isdir srcdir w = true /\ os_isdir base w = false /\
   msg = "Output directory does not exist.").
Proof.
  intros srcdir base. unfold main, startup. fold srcdir base.
  destruct args as [|a args].
  - destruct (unset (indir opts)) eqn:Ei.
    + cbn [fst]. split.
      * intros [= <-]. right. left. auto.
      * intros [(H & _) | [(_ & _ & ->) | [(_ & H & _) | [(_ & H & _) | (_ & H & _)]]]];
          try reflexivity; try discriminate H. now contradiction H.
    + destruct (unset (outdir opts)) eqn:Eo.
      * cbn [fst]. split.
        -- intros [= <-]. right. right. left. auto.
        -- intros [(H & _) | [(_ & H & _) | [(_ & _ & _ & ->) | [(_ & _ & H & _) | (_ & _ & H & _)]]]];
             try reflexivity; try discriminate H. now contradiction H.
      * unfold isdir. cbn [world log].
        destruct (os_isdir srcdir w) eqn:Es; cbv iota beta.
        -- cbn [world log].
           destruct (os_isdir base w) eqn:Eb; cbv iota beta.
           ++ split.
              ** intros H. exfalso.
                 destruct (main_loop fuel (verbose opts) srcdir base _) as [[[[]|e]|] st'];
                   discriminate H.
              ** intros [(H & _) | [(_ & H & _) | [(_ & _ & H & _) | [(_ & _ & _ & H & _) | (_ & _ & _ & _ & H & _)]]]];
                   try discriminate H. now contradiction H.
           ++ cbn [fst]. split.
              ** intros [= <-]. do 4 right. auto 10.
              ** intros [(H & _) | [(_ & H & _) | [(_ & _ & H & _) | [(_ & _ & _ & H & _) | (_ & _ & _ & _ & _ & ->)]]]];
                   try reflexivity; try discriminate H. now contradiction H.
        -- cbn [fst]. split.
           ++ intros [= <-]. do 3 right. left. auto 10.
           ++ intros [(H & _) | [(_ & H & _) | [(_ & _ & H & _) | [(_ & _ & _ & _ & ->) | (_ & _ & _ & H & _)]]]];
                try reflexivity; try discriminate H. now contradiction H.
  - cbn [fst]. split.
    + intros [= <-]. left. split; [discriminate | reflexivity].
    + intros [(_ & ->) | [(H & _) | [(H & _) | [(H & _) | (H & _)]]]];
        try reflexivity; discriminate H.
Qed.

End WholeScript.

(** * The further properties on the small operating system *)

(** A [gzip] that fails, in verbose mode. *)
Lemma gzip_failure_leaves_file_witness :
  exists st',
    process_one_file true "/data/in" "/data/out" "cam1_20120304-000000001.fits"
      (Toy.entered Toy.w_broken) = (Ok tt, st') /\
    trace st' =
      [ EWrite "/data/in/cam1_20120304-000000001.fits -> ";
        ECall ["/bin/gzip"; "-1"; "/data/in/cam1_20120304-000000001.fits"];
        EWrite nl; EFlush ].
Proof.
  eexists. split.
  - apply (gzip_failure_leaves_file true "/data/in" "/data/out"
             "cam1_20120304-000000001.fits" (Toy.entered Toy.w_broken)).
    vm_compute. discriminate.
  - reflexivity.
Defined.

(** The verbose and the quiet run of the example, to the end of the first
    round. *)
Lemma verbose_only_prints_witness :
  main 1 (mkOptions (Some "/data/in") (Some "/data/out") false) [] Toy.w0 =
    (fst (main 1 (mkOptions (Some "/data/in") (Some "/data/out") true) [] Toy.w0),
     silent (snd (main 1 (mkOptions (Some "/data/in") (Some "/data/out") true) []
                    Toy.w0))).
Proof.
  exact (proj1 verbose_only_prints 1
           (mkOptions (Some "/data/in") (Some "/data/out") true) [] Toy.w0).
Defined.

(** The line of the example. *)
Lemma verbose_line_witness :
  exists st' new,
    process_one_file true "/data/in" "/data/out" "cam1_20120304-000000001.fits"
      (Toy.entered Toy.w0) = (Ok tt, st') /\
    trace st' = new /\
    output new =
      "/data/in/cam1_20120304-000000001.fits -> " ++
      "/data/out/cam1/2012/03/04/cam1_20120304-000000001.fits.gz" ++ nl.
Proof.
  destruct (verbose_line "/data/in" "/data/out" "/data/out"
              "cam1_20120304-000000001.fits" (Toy.entered Toy.w0) eq_refl)
    as (st' & new & E & Ht & _).
  exists st', new. split; [exact E|]. split; [exact Ht|].
  vm_compute in E. injection E as <-. simpl in Ht. subst new. reflexivity.
Defined.

Lemma relative_name_appends_witness :
  startswith (join "/data/out" ["cam1"; "2012"; "03"; "04"]) "/data/out" = true /\
  startswith (join "/data/in" ["cam1_20120304-000000001.fits.gz"]) "/data/in" = true /\
  endswith (join "/data/in" ["cam1_20120304-000000001.fits.gz"])
    "cam1_20120304-000000001.fits.gz" = true.
Proof.
  exact (relative_name_appends "cam1_20120304-000000001.fits.gz" "/data/in" "/data/out"
           "cam1" "2012" "03" "04" eq_refl eq_refl).
Defined.

Lemma absolute_name_overrides_witness :
  startswith "/tmp/x" "/" = true /\
  join "/data/out" ["/tmp/x"; "2012"; "03"; "04"] = "/tmp/x/2012/03/04" /\
  join "/data/in" ["/tmp/x_20120304-000000001.fits.gz"] =
    "/tmp/x_20120304-000000001.fits.gz".
Proof.
  exact (absolute_name_overrides "/tmp/x_20120304-000000001.fits.gz" "/data/in"
           "/data/out" "/tmp/x" "2012" "03" "04" eq_refl eq_refl).
Defined.

(** Two rounds, the second cut short by a signal. *)
Lemma one_sleep_per_round_witness :
  exists new,
    trace (snd (main_loop 3 false "/data/in" "/data/out" (Toy.entered Toy.w_signal)))
      = new /\
    sleeps new = polls new.
Proof.
  refine (proj1 one_sleep_per_round false "/data/in" "/data/out" 3
            (Toy.entered Toy.w_signal) _ _ _ _);
    [discriminate | apply surjective_pairing].
Defined.

Lemma usage_error_messages_witness :
  fst (main 5 (mkOptions (Some "/nowhere") (Some "/nowhere/else") true) [] Toy.w0)
    = UsageError "Input directory does not exist.".
Proof.
  apply (usage_error_messages 5 (mkOptions (Some "/nowhere") (Some "/nowhere/else") true)
           [] Toy.w0).
  do 3 right. left. repeat split.
Defined.

Lemma only_script_events_witness :
  Forall (script_call "/data/in" "/data/out")
    (calls (trace (snd (main 2 (mkOptions (Some "/data/in") (Some "/data/out") true) []
                          Toy.w0)))).
Proof.
  exact (proj2 only_script_events 2
           (mkOptions (Some "/data/in") (Some "/data/out") true) [] Toy.w0).
Defined.

Lemma gz_suffix_keeps_parse_witness :
  re_fname_groups ("cam1_20120304-000000001.fits" ++ ".gz") =
    re_fname_groups "cam1_20120304-000000001.fits".
Proof.
  exact (proj1 (gz_suffix_keeps_parse "cam1_20120304-000000001.fits") eq_refl).
Defined.

